(** * The Discv5 service reactor (src/service/service.ts)

    A shallow embedding of the [Discv5] class: its fields become the record
    [Discv5], its methods become computations in a small state-and-exception
    monad [M], and every call that leaves the class (to the session
    service, to a lookup, to the application's listeners) is appended to a
    trace kept in the state. Calls of [log] are left out.

    The collaborators that the class imports are not among the sources and
    are taken through interfaces: the routing table as a class of
    operations, the distance functions, the session service's failures and
    the request ids as a class of functions. A call on a lookup is recorded
    in the trace; what the lookups, the table and the session service emit
    comes in as an input of the reactor ([Event]), handled to completion
    before the next one. *)

From Stdlib Require Import ZArith NArith List Lia.
From stdpp Require Import base gmap list option.

Open Scope Z_scope.

(** ** Data of the imported modules *)

(** A node identifier, as the 256-bit number it denotes. *)
Definition NodeId := N.

Record ENR := mkENR { nodeId : NodeId; seq : Z }.

Record Multiaddr := mkMultiaddr { host : N; port : Z }.

Definition AuthTag := Z.

Inductive EntryStatus := Connected | Disconnected.

Record Entry := mkEntry { value : ENR; status : EntryStatus }.

Record ILookupPeer := mkLookupPeer { peerNodeId : NodeId; iteration : Z }.

(** The part of a [Lookup] that the service reads and writes. *)
Record Lookup := mkLookup {
  target : NodeId;
  knownClosestPeers : list NodeId;
  untrustedEnrs : list ENR
}.

Inductive MessageType := PING | PONG | FINDNODE | NODES.

(** The requests this service creates and registers. *)
Inductive RequestMessage :=
| IPingMessage (id : Z) (enrSeq : Z)
| IFindNodeMessage (id : Z) (distance : Z).

Inductive ResponseMessage :=
| IPongMessage (id : Z) (enrSeq : Z) (recipientIp : N) (recipientPort : Z)
| INodesMessage (id : Z) (total : Z) (enrs : list ENR).

Inductive Message :=
| Request (m : RequestMessage)
| Response (m : ResponseMessage)
| OtherMessage.

Definition reqId (m : RequestMessage) : Z :=
  match m with IPingMessage i _ | IFindNodeMessage i _ => i end.

Definition reqType (m : RequestMessage) : MessageType :=
  match m with IPingMessage _ _ => PING | IFindNodeMessage _ _ => FINDNODE end.

(** [request.distance] after the cast to [IFindNodeMessage]: a PING object
    has no such property. *)
Definition reqDistance (m : RequestMessage) : option Z :=
  match m with IPingMessage _ _ => None | IFindNodeMessage _ d => Some d end.

Definition resId (m : ResponseMessage) : Z :=
  match m with IPongMessage i _ _ _ | INodesMessage i _ _ => i end.

Definition resType (m : ResponseMessage) : MessageType :=
  match m with IPongMessage _ _ _ _ => PONG | INodesMessage _ _ _ => NODES end.

(** Modelled from the spec: [requestMatchesResponse] of ../message is not
    among the sources; the kinds agree for PING with PONG and for FINDNODE
    with NODES. *)
Definition requestMatchesResponse (req : RequestMessage) (res : ResponseMessage) : bool :=
  match reqType req, resType res with
  | PING, PONG => true
  | FINDNODE, NODES => true
  | _, _ => false
  end.

(** Modelled from the spec: the constants of ../packet and ../enr. *)
Definition MAX_PACKET_SIZE : Z := 1280.
Definition MAX_RECORD_SIZE : Z := 300.

Record INodesResponse := mkNodesResponse { count : Z; enrs : list ENR }.

Definition Timer := nat.

(** ** What the service hands to the outside *)

Inductive SessionCall :=
| SendRequest (dstEnr : ENR) (req : RequestMessage)
| SendResponse (src : Multiaddr) (srcId : NodeId) (res : ResponseMessage)
| SendRequestUnknownEnr (src : Multiaddr) (dst : NodeId) (req : RequestMessage).

Inductive AppEvent :=
| EnrAdded (inserted : ENR) (evicted : option ENR)
| Discovered (enr : ENR).

Inductive Effect :=
| Session (call : SessionCall) (threw : bool)
| SendWhoAreYou (src : Multiaddr) (srcId : NodeId) (enrSeq : Z) (enr : option ENR) (authTag : AuthTag)
| UpdateEnr (enr : ENR)
| Emit (e : AppEvent)
| LookupStart (lookupId : Z)
| LookupStop (lookupId : Z)
| LookupOnSuccess (lookupId : Z) (srcId : NodeId) (closer : list NodeId)
| LookupOnFailure (lookupId : Z) (peer : NodeId)
| Resolve (lookupId : Z) (found : list ENR).

Definition isSessionCall (e : Effect) : option SessionCall :=
  match e with Session c _ => Some c | _ => None end.

Definition isDiscovered (e : Effect) : option ENR :=
  match e with Emit (Discovered enr) => Some enr | _ => None end.

(** The calls made on the session service's three sending methods, in order. *)
Definition sessionCalls (tr : list Effect) : list SessionCall := omap isSessionCall tr.

(** The ENRs of the [discovered] events emitted, in order. *)
Definition discoveredEnrs (tr : list Effect) : list ENR := omap isDiscovered tr.

(** ** A JavaScript [Map] whose iteration order is observed

    [activeLookups] is iterated by [findEnr] and [stop]; a [Map] iterates in
    insertion order, and [set] on a present key keeps the key's place. *)

Section JsMap.
Context {V : Type}.

Fixpoint jsGet (k : Z) (m : list (Z * V)) : option V :=
  match m with
  | [] => None
  | (k', v) :: m' => if Z.eqb k k' then Some v else jsGet k m'
  end.

Fixpoint jsSet (k : Z) (v : V) (m : list (Z * V)) : list (Z * V) :=
  match m with
  | [] => [(k, v)]
  | (k', v') :: m' => if Z.eqb k k' then (k, v) :: m' else (k', v') :: jsSet k v m'
  end.

Fixpoint jsDelete (k : Z) (m : list (Z * V)) : list (Z * V) :=
  match m with
  | [] => []
  | (k', v') :: m' => if Z.eqb k k' then m' else (k', v') :: jsDelete k m'
  end.

Definition jsKeys (m : list (Z * V)) : list Z := map fst m.
Definition jsValues (m : list (Z * V)) : list V := map snd m.
End JsMap.

(** ** The routing table's interface (../kademlia) *)

Class KademliaOps (T : Type) := {
  newTable : NodeId -> Z -> T;
  getValue : T -> NodeId -> option ENR;
  getWithPending : T -> NodeId -> option Entry;
  add : T -> ENR -> EntryStatus -> T * bool;
  update : T -> ENR -> EntryStatus -> T;
  updateValue : T -> ENR -> T;
  updateStatus : T -> NodeId -> EntryStatus -> T;
  nearest : T -> NodeId -> Z -> list ENR;
  valuesOfDistance : T -> Z -> list ENR;
  values : T -> list ENR;
  clearTable : T -> T
}.

(** ** The other imports

    [log2Distance] and [findNodeLog2Distance] of ../kademlia; whether the
    session service throws on a call, given everything that left the
    service before it; and the request ids that [createPingMessage] and
    [createFindNodeMessage] draw, in the order they are drawn. *)

Class Collaborators := {
  log2Distance : NodeId -> NodeId -> Z;
  findNodeLog2Distance : NodeId -> ILookupPeer -> Z;
  sessionThrows : list Effect -> SessionCall -> bool;
  requestIds : nat -> Z
}.

(** The outcome of a call: a value, or an exception. *)
Inductive Result (A : Type) :=
| Ok (a : A)
| Throw.
Arguments Ok {A} a.
Arguments Throw {A}.

(** ** The service state *)

Section Service.

Context {KademliaRoutingTable : Type} `{!KademliaOps KademliaRoutingTable} `{!Collaborators}.

Record Discv5 := mkDiscv5 {
  started : bool;
  enr : ENR;
  kbuckets : KademliaRoutingTable;
  activeLookups : list (Z * Lookup);
  activeRequests : gmap Z (RequestMessage * option Z);
  activeNodesResponses : gmap Z INodesResponse;
  connectedPeers : gmap NodeId Timer;
  nextLookupId : Z;
  (* the runtime around the object *)
  intervals : gmap Timer NodeId;
  timersCreated : nat;
  idsDrawn : nat;
  trace : list Effect
}.

Definition setStarted (b : bool) (s : Discv5) : Discv5 :=
  mkDiscv5 b (enr s) (kbuckets s) (activeLookups s) (activeRequests s)
    (activeNodesResponses s) (connectedPeers s) (nextLookupId s)
    (intervals s) (timersCreated s) (idsDrawn s) (trace s).

Definition setKbuckets (t : KademliaRoutingTable) (s : Discv5) : Discv5 :=
  mkDiscv5 (started s) (enr s) t (activeLookups s) (activeRequests s)
    (activeNodesResponses s) (connectedPeers s) (nextLookupId s)
    (intervals s) (timersCreated s) (idsDrawn s) (trace s).

Definition setActiveLookups (l : list (Z * Lookup)) (s : Discv5) : Discv5 :=
  mkDiscv5 (started s) (enr s) (kbuckets s) l (activeRequests s)
    (activeNodesResponses s) (connectedPeers s) (nextLookupId s)
    (intervals s) (timersCreated s) (idsDrawn s) (trace s).

Definition setActiveRequests (r : gmap Z (RequestMessage * option Z)) (s : Discv5) : Discv5 :=
  mkDiscv5 (started s) (enr s) (kbuckets s) (activeLookups s) r
    (activeNodesResponses s) (connectedPeers s) (nextLookupId s)
    (intervals s) (timersCreated s) (idsDrawn s) (trace s).

Definition setActiveNodesResponses (r : gmap Z INodesResponse) (s : Discv5) : Discv5 :=
  mkDiscv5 (started s) (enr s) (kbuckets s) (activeLookups s) (activeRequests s)
    r (connectedPeers s) (nextLookupId s)
    (intervals s) (timersCreated s) (idsDrawn s) (trace s).

Definition setConnectedPeers (c : gmap NodeId Timer) (s : Discv5) : Discv5 :=
  mkDiscv5 (started s) (enr s) (kbuckets s) (activeLookups s) (activeRequests s)
    (activeNodesResponses s) c (nextLookupId s)
    (intervals s) (timersCreated s) (idsDrawn s) (trace s).

Definition setNextLookupId (n : Z) (s : Discv5) : Discv5 :=
  mkDiscv5 (started s) (enr s) (kbuckets s) (activeLookups s) (activeRequests s)
    (activeNodesResponses s) (connectedPeers s) n
    (intervals s) (timersCreated s) (idsDrawn s) (trace s).

Definition setIntervals (i : gmap Timer NodeId) (n : nat) (s : Discv5) : Discv5 :=
  mkDiscv5 (started s) (enr s) (kbuckets s) (activeLookups s) (activeRequests s)
    (activeNodesResponses s) (connectedPeers s) (nextLookupId s)
    i n (idsDrawn s) (trace s).

Definition setIdsDrawn (n : nat) (s : Discv5) : Discv5 :=
  mkDiscv5 (started s) (enr s) (kbuckets s) (activeLookups s) (activeRequests s)
    (activeNodesResponses s) (connectedPeers s) (nextLookupId s)
    (intervals s) (timersCreated s) n (trace s).

Definition setTrace (t : list Effect) (s : Discv5) : Discv5 :=
  mkDiscv5 (started s) (enr s) (kbuckets s) (activeLookups s) (activeRequests s)
    (activeNodesResponses s) (connectedPeers s) (nextLookupId s)
    (intervals s) (timersCreated s) (idsDrawn s) t.

(** ** The monad: state, and exceptions that keep the state *)

Definition M (A : Type) : Type := Discv5 -> Result A * Discv5.

Definition ret {A} (a : A) : M A := fun s => (Ok a, s).

Definition bind {A B} (m : M A) (k : A -> M B) : M B :=
  fun s => match m s with
           | (Ok a, s') => k a s'
           | (Throw, s') => (Throw, s')
           end.

Definition get : M Discv5 := fun s => (Ok s, s).

Definition modify (f : Discv5 -> Discv5) : M unit := fun s => (Ok tt, f s).

(** [try { m } catch (e) { log(...) }] *)
Definition tryCatch (m : M unit) : M unit :=
  fun s => match m s with
           | (Ok a, s') => (Ok a, s')
           | (Throw, s') => (Ok tt, s')
           end.

Definition exec {A} (m : M A) (s : Discv5) : Discv5 := snd (m s).

Definition returns {A} (m : M A) (s : Discv5) : Prop := exists a, fst (m s) = Ok a.

Notation "x <- m ;; k" := (bind m (fun x => k))
  (at level 100, m at next level, right associativity).
Notation "m ;; k" := (bind m (fun _ => k))
  (at level 100, right associativity).

Fixpoint forEach {A} (l : list A) (body : A -> M unit) : M unit :=
  match l with
  | [] => ret tt
  | a :: l' => body a ;; forEach l' body
  end.

Definition effect (e : Effect) : M unit :=
  modify (fun s => setTrace (trace s ++ [e]) s).

Definition emit (e : AppEvent) : M unit := effect (Emit e).

(** A call of one of the session service's sending methods: it is made, and
    it returns or throws. *)
Definition sessionService (c : SessionCall) : M unit :=
  fun s =>
    let threw := sessionThrows (trace s) c in
    let s' := setTrace (trace s ++ [Session c threw]) s in
    if threw then (Throw, s') else (Ok tt, s').

Definition createRequestId : M Z :=
  fun s => (Ok (requestIds (idsDrawn s)), setIdsDrawn (S (idsDrawn s)) s).

Definition createPingMessage (enrSeq : Z) : M RequestMessage :=
  i <- createRequestId ;; ret (IPingMessage i enrSeq).

Definition createFindNodeMessage (distance : Z) : M RequestMessage :=
  i <- createRequestId ;; ret (IFindNodeMessage i distance).

Definition setInterval (nodeId : NodeId) : M Timer :=
  fun s => let h := timersCreated s in
           (Ok h, setIntervals (<[h := nodeId]> (intervals s)) (S h) s).

Definition clearInterval (h : option Timer) : M unit :=
  match h with
  | Some h => modify (fun s => setIntervals (delete h (intervals s)) (timersCreated s) s)
  | None => ret tt
  end.

(** ** The methods *)

(** constructor *)
Definition newDiscv5 (localEnr : ENR) : Discv5 :=
  mkDiscv5 false localEnr (newTable (nodeId localEnr) 16) [] ∅ ∅ ∅ 1 ∅ 0%nat 0%nat [].

Definition sendRequest (nodeId : NodeId) (req : RequestMessage) (lookupId : option Z) : M unit :=
  s <- get ;;
  match getValue (kbuckets s) nodeId with
  | None => ret tt
  | Some dstEnr =>
      tryCatch (
        sessionService (SendRequest dstEnr req) ;;
        modify (fun s => setActiveRequests (<[reqId req := (req, lookupId)]> (activeRequests s)) s))
  end.

Definition sendPing (nodeId : NodeId) : M unit :=
  s <- get ;;
  req <- createPingMessage (seq (enr s)) ;;
  sendRequest nodeId req None.

Definition requestEnr (nodeId : NodeId) (src : Multiaddr) : M unit :=
  tryCatch (
    req <- createFindNodeMessage 0 ;;
    sessionService (SendRequestUnknownEnr src nodeId req)).

Definition sendLookup (lookupId : Z) (target : NodeId) (peer : ILookupPeer) : M unit :=
  let distance := findNodeLog2Distance target peer in
  if Z.eqb distance 0 then
    s <- get ;;
    match jsGet lookupId (activeLookups s) with
    | Some _ => effect (LookupOnFailure lookupId (peerNodeId peer))
    | None => ret tt
    end
  else
    req <- createFindNodeMessage distance ;;
    sendRequest (peerNodeId peer) req (Some lookupId).

Definition connectionUpdated (nodeId : NodeId) (enr : option ENR) (newStatus : EntryStatus) : M unit :=
  s <- get ;;
  match getWithPending (kbuckets s) nodeId with
  | Some _ =>
      match enr with
      | Some enr => modify (fun s => setKbuckets (update (kbuckets s) enr newStatus) s)
      | None => modify (fun s => setKbuckets (updateStatus (kbuckets s) nodeId newStatus) s)
      end
  | None =>
      match newStatus, enr with
      | Connected, Some enr =>
          let (t, inserted) := add (kbuckets s) enr newStatus in
          modify (setKbuckets t) ;;
          if inserted then emit (EnrAdded enr None) else ret tt
      | _, _ => ret tt
      end
  end.

Definition findEnr (s : Discv5) (id : NodeId) : option ENR :=
  match getValue (kbuckets s) id with
  | Some enr => Some enr
  | None =>
      List.find (fun enr => N.eqb (nodeId enr) id)
        (concat (map untrustedEnrs (jsValues (activeLookups s))))
  end.

Definition retrieveRequest (srcId : NodeId) (message : ResponseMessage)
  : M (option (RequestMessage * option Z)) :=
  s <- get ;;
  match activeRequests s !! resId message with
  | None => ret None
  | Some activeRequest =>
      modify (fun s => setActiveRequests (delete (resId message) (activeRequests s)) s) ;;
      if requestMatchesResponse (fst activeRequest) message then ret None
      else ret (Some activeRequest)
  end.

(** [lookup.untrustedEnrs.push(enr)] unless an ENR of that node is there. *)
Definition pushUntrusted (l : list ENR) (enr : ENR) : list ENR :=
  match List.find (fun lookupEnr => N.eqb (nodeId lookupEnr) (nodeId enr)) l with
  | Some _ => l
  | None => l ++ [enr]
  end.

Definition discovered (srcId : NodeId) (enrs : list ENR) (lookupId : option Z) : M unit :=
  s <- get ;;
  let localId := nodeId (enr s) in
  let others := List.filter (fun enr => negb (N.eqb (nodeId enr) localId)) enrs in
  forEach others (fun enr =>
    emit (Discovered enr) ;;
    s <- get ;;
    match getWithPending (kbuckets s) (nodeId enr) with
    | Some entry =>
        if Z.ltb (seq (value entry)) (seq enr) then
          modify (fun s => setKbuckets (updateValue (kbuckets s) enr) s) ;;
          effect (UpdateEnr enr)
        else ret tt
    | None => effect (UpdateEnr enr)
    end) ;;
  match lookupId with
  | Some lookupId =>
      if Z.eqb lookupId 0 then ret tt
      else
        s <- get ;;
        match jsGet lookupId (activeLookups s) with
        | Some lookup =>
            let lookup' :=
              mkLookup (target lookup) (knownClosestPeers lookup)
                (fold_left pushUntrusted others (untrustedEnrs lookup)) in
            modify (fun s => setActiveLookups (jsSet lookupId lookup' (activeLookups s)) s) ;;
            effect (LookupOnSuccess lookupId srcId (map nodeId others))
        | None => ret tt
        end
  | None => ret tt
  end.

Definition addEnr (enr : ENR) : M unit :=
  s <- get ;;
  match getWithPending (kbuckets s) (nodeId enr) with
  | Some _ => modify (fun s => setKbuckets (updateValue (kbuckets s) enr) s)
  | None =>
      let (t, inserted) := add (kbuckets s) enr Disconnected in
      modify (setKbuckets t) ;;
      if inserted then emit (EnrAdded enr None) else ret tt
  end.

Definition start : M unit :=
  s <- get ;;
  if started s then ret tt else modify (setStarted true).

Definition stop : M unit :=
  s <- get ;;
  if negb (started s) then ret tt
  else
    modify (fun s => setKbuckets (clearTable (kbuckets s)) s) ;;
    forEach (jsKeys (activeLookups s)) (fun l => effect (LookupStop l)) ;;
    modify (setActiveLookups []) ;;
    modify (setNextLookupId 1) ;;
    modify (setActiveRequests ∅) ;;
    modify (setActiveNodesResponses ∅) ;;
    forEach (map snd (map_to_list (connectedPeers s))) (fun h => clearInterval (Some h)) ;;
    modify (setConnectedPeers ∅) ;;
    modify (setStarted false).

(** [findNode] up to the point where it awaits the lookup; the value is the
    lookup id that its two listeners close over. *)
Definition findNode (target : NodeId) : M Z :=
  s <- get ;;
  let lookupId := nextLookupId s in
  (if Z.geb (nextLookupId s) (2 ^ 32)
   then modify (setNextLookupId 1)
   else modify (fun s => setNextLookupId (nextLookupId s + 1) s)) ;;
  s <- get ;;
  let knownClosestPeers := map nodeId (nearest (kbuckets s) target 16) in
  let lookup := mkLookup target knownClosestPeers [] in
  modify (fun s => setActiveLookups (jsSet lookupId lookup (activeLookups s)) s) ;;
  effect (LookupStart lookupId) ;;
  ret lookupId.

(** The listener that [findNode] installs for the lookup's "finished". *)
Definition onLookupFinished (lookupId : Z) (closest : list NodeId) : M unit :=
  s <- get ;;
  effect (Resolve lookupId (omap (findEnr s) closest)) ;;
  modify (fun s => setActiveLookups (jsDelete lookupId (activeLookups s)) s).

Definition onPendingEviction (enr : ENR) : M unit := sendPing (nodeId enr).

Definition onAppliedEviction (inserted : ENR) (evicted : option ENR) : M unit :=
  emit (EnrAdded inserted evicted).

Definition onEstablished (enr : ENR) : M unit :=
  let nodeId := nodeId enr in
  connectionUpdated nodeId (Some enr) Connected ;;
  sendPing nodeId ;;
  h <- setInterval nodeId ;;
  modify (fun s => setConnectedPeers (<[nodeId := h]> (connectedPeers s)) s).

Definition onPing (srcId : NodeId) (src : Multiaddr) (id enrSeq : Z) : M unit :=
  s <- get ;;
  match getWithPending (kbuckets s) srcId with
  | Some entry =>
      if Z.ltb (seq (value entry)) enrSeq then requestEnr srcId src else ret tt
  | None => requestEnr srcId src
  end ;;
  s <- get ;;
  tryCatch (
    sessionService (SendResponse src srcId (IPongMessage id (seq (enr s)) (host src) (port src)))).

Definition onPong (srcId : NodeId) (src : Multiaddr)
    (id enrSeq : Z) (recipientIp : N) (recipientPort : Z) : M unit :=
  activeRequest <- retrieveRequest srcId (IPongMessage id enrSeq recipientIp recipientPort) ;;
  match activeRequest with
  | None => ret tt
  | Some _ =>
      s <- get ;;
      match findEnr s srcId with
      | Some enr =>
          (if Z.ltb (seq enr) enrSeq then
             req <- createFindNodeMessage 0 ;;
             sendRequest srcId req None
           else ret tt) ;;
          connectionUpdated srcId None Connected
      | None => ret tt
      end
  end.

(** [Math.floor((MAX_PACKET_SIZE - 92) / MAX_RECORD_SIZE)] *)
Definition nodesPerPacket : Z := (MAX_PACKET_SIZE - 92) / MAX_RECORD_SIZE.

(** [Math.ceil(n / k)] for [0 <= n] and [0 < k], on integers: a list's
    length is far below the size at which the floating-point quotient
    would round across an integer. *)
Definition ceilDiv (n k : Z) : Z := (n + k - 1) / k.

(** [nodes.slice(i, j)] for [0 <= i <= j]. *)
Definition slice {A} (i j : Z) (l : list A) : list A :=
  take (Z.to_nat (j - i)) (drop (Z.to_nat i) l).

(** The loop [for (let i = ...; i < nodes.length; i += nodesPerPacket)],
    entered at [i]; [fuel] bounds the number of iterations. *)
Fixpoint sendNodesFrom (fuel : nat) (i : Z) (nodes : list ENR)
    (src : Multiaddr) (srcId : NodeId) (id total : Z) : M unit :=
  match fuel with
  | O => ret tt
  | S fuel' =>
      if Z.ltb i (Z.of_nat (length nodes)) then
        let _nodes := slice i (i + nodesPerPacket) nodes in
        tryCatch (sessionService (SendResponse src srcId (INodesMessage id total _nodes))) ;;
        sendNodesFrom fuel' (i + nodesPerPacket) nodes src srcId id total
      else ret tt
  end.

Definition onFindNode (srcId : NodeId) (src : Multiaddr) (id distance : Z) : M unit :=
  (if Z.eqb distance 0 then
     s <- get ;;
     tryCatch (sessionService (SendResponse src srcId (INodesMessage id 1 [enr s])))
   else ret tt) ;;
  s <- get ;;
  let nodes := valuesOfDistance (kbuckets s) distance in
  if Nat.eqb (length nodes) 0 then
    tryCatch (sessionService (SendResponse src srcId (INodesMessage id 0 nodes)))
  else
    let total := ceilDiv (Z.of_nat (length nodes)) nodesPerPacket in
    sendNodesFrom (length nodes) 0 nodes src srcId id total.

(** [message] is given by its fields; [enrs1] is [message.enrs] after the
    filter, [finish] the tail of the method from its last [log] on. The
    test [message.total > 5] only logs. *)
Definition onNodes (srcId : NodeId) (src : Multiaddr)
    (id total : Z) (enrs0 : list ENR) : M unit :=
  activeRequest <- retrieveRequest srcId (INodesMessage id total enrs0) ;;
  match activeRequest with
  | None => ret tt
  | Some activeRequest =>
      let (request, lookupId) := activeRequest in
      let distanceRequested := reqDistance request in
      s <- get ;;
      let enrs1 :=
        List.filter
          (fun e => bool_decide (Some (log2Distance (nodeId e) (nodeId (enr s))) = distanceRequested))
          enrs0 in
      let finish (enrs2 : list ENR) : M unit :=
        modify (fun s => setActiveNodesResponses (delete id (activeNodesResponses s)) s) ;;
        discovered srcId enrs2 lookupId in
      if Z.gtb total 1 then
        s <- get ;;
        let currentResponse :=
          default (mkNodesResponse 1 []) (activeNodesResponses s !! id) in
        modify (fun s => setActiveNodesResponses (delete id (activeNodesResponses s)) s) ;;
        if Z.ltb (count currentResponse) 5 && Z.ltb (count currentResponse) total then
          let currentResponse' :=
            mkNodesResponse (count currentResponse + 1) (enrs currentResponse) in
          modify (fun s => setActiveRequests (<[id := activeRequest]> (activeRequests s)) s) ;;
          modify (fun s => setActiveNodesResponses (<[id := currentResponse']> (activeNodesResponses s)) s)
        else
          finish (enrs1 ++ enrs currentResponse)
      else
        finish enrs1
  end.

Definition onWhoAreYouRequest (srcId : NodeId) (src : Multiaddr) (authTag : AuthTag) : M unit :=
  s <- get ;;
  match findEnr s srcId with
  | Some enr => effect (SendWhoAreYou src srcId (seq enr) (Some enr) authTag)
  | None => effect (SendWhoAreYou src srcId 0 None authTag)
  end.

Definition onRequestFailed (srcId : NodeId) (rpcId : Z) : M unit :=
  s <- get ;;
  match activeRequests s !! rpcId with
  | Some (request, lookupId) =>
      match reqType request with
      | FINDNODE =>
          match activeNodesResponses s !! rpcId with
          | Some nodesResponse =>
              modify (fun s => setActiveNodesResponses (delete rpcId (activeNodesResponses s)) s) ;;
              discovered srcId (enrs nodesResponse) lookupId
          | None =>
              match lookupId with
              | Some lookupId =>
                  match jsGet lookupId (activeLookups s) with
                  | Some _ => effect (LookupOnFailure lookupId srcId)
                  | None => ret tt
                  end
              | None => ret tt
              end
          end
      | _ => ret tt
      end
  | None => ret tt
  end ;;
  connectionUpdated srcId None Disconnected ;;
  s <- get ;;
  clearInterval (connectedPeers s !! srcId) ;;
  modify (fun s => setConnectedPeers (delete srcId (connectedPeers s)) s).

Definition onMessage (srcId : NodeId) (src : Multiaddr) (message : Message) : M unit :=
  match message with
  | Request (IPingMessage id enrSeq) => onPing srcId src id enrSeq
  | Response (IPongMessage id enrSeq ip p) => onPong srcId src id enrSeq ip p
  | Request (IFindNodeMessage id distance) => onFindNode srcId src id distance
  | Response (INodesMessage id total enrs) => onNodes srcId src id total enrs
  | OtherMessage => ret tt
  end.

(** The interval handler installed by [onEstablished]. *)
Definition onInterval (h : Timer) : M unit :=
  s <- get ;;
  match intervals s !! h with
  | Some nodeId => sendPing nodeId
  | None => ret tt
  end.

(** ** The reactor: one input at a time, each handled to completion *)

Inductive Event :=
| EStart
| EStop
| EAddEnr (enr : ENR)
| EFindNode (target : NodeId)
| ELookupPeer (lookupId : Z) (target : NodeId) (peer : ILookupPeer)
| ELookupFinished (lookupId : Z) (closest : list NodeId)
| EPendingEviction (enr : ENR)
| EAppliedEviction (inserted : ENR) (evicted : option ENR)
| EEstablished (enr : ENR)
| EMessage (srcId : NodeId) (src : Multiaddr) (message : Message)
| EWhoAreYouRequest (srcId : NodeId) (src : Multiaddr) (authTag : AuthTag)
| ERequestFailed (srcId : NodeId) (rpcId : Z)
| EInterval (h : Timer).

(** The listeners on the session service and on the table are attached by
    [start] and detached by [stop]; both are taken as one step each. *)
Definition whenStarted (m : M unit) : M unit :=
  s <- get ;;
  if started s then m else ret tt.

Definition handle (e : Event) : M unit :=
  match e with
  | EStart => start
  | EStop => stop
  | EAddEnr enr => addEnr enr
  | EFindNode target => findNode target ;; ret tt
  | ELookupPeer lookupId target peer => sendLookup lookupId target peer
  | ELookupFinished lookupId closest => onLookupFinished lookupId closest
  | EPendingEviction enr => whenStarted (onPendingEviction enr)
  | EAppliedEviction inserted evicted => whenStarted (onAppliedEviction inserted evicted)
  | EEstablished enr => whenStarted (onEstablished enr)
  | EMessage srcId src message => whenStarted (onMessage srcId src message)
  | EWhoAreYouRequest srcId src authTag => whenStarted (onWhoAreYouRequest srcId src authTag)
  | ERequestFailed srcId rpcId => whenStarted (onRequestFailed srcId rpcId)
  | EInterval h => onInterval h
  end.

Definition run (events : list Event) (s : Discv5) : Discv5 :=
  fold_left (fun s e => exec (handle e) s) events s.

End Service.

Arguments Discv5 : clear implicits.

(** ** Runs used by the statements below *)

Section Runs.

Context {KademliaRoutingTable : Type} `{!KademliaOps KademliaRoutingTable} `{!Collaborators}.

(** A NODES packet is accepted when [retrieveRequest] hands [onNodes] the
    request it answers. *)
Definition accepted (srcId : NodeId) (id total : Z) (enrs0 : list ENR) (s : Discv5 KademliaRoutingTable) : bool :=
  match fst (retrieveRequest srcId (INodesMessage id total enrs0) s) with
  | Ok (Some _) => true
  | _ => false
  end.

(** The state after NODES packets with one id and one declared total have
    arrived from [srcId], one ENR list per packet. *)
Definition receiveNodes (srcId : NodeId) (src : Multiaddr) (id total : Z)
    (packets : list (list ENR)) (s : Discv5 KademliaRoutingTable) : Discv5 KademliaRoutingTable :=
  fold_left (fun s p => exec (onNodes srcId src id total p) s) packets s.

(** How many of these packets are accepted. *)
Fixpoint acceptedCount (srcId : NodeId) (src : Multiaddr) (id total : Z)
    (packets : list (list ENR)) (s : Discv5 KademliaRoutingTable) : nat :=
  match packets with
  | [] => 0%nat
  | p :: ps =>
      ((if accepted srcId id total p s then 1 else 0)
       + acceptedCount srcId src id total ps (exec (onNodes srcId src id total p) s))%nat
  end.

(** The state after [n] calls of [findNode] on a new instance. *)
Definition afterLookups (localEnr : ENR) (target : NodeId) (n : N) : Discv5 KademliaRoutingTable :=
  N.iter n (exec (findNode target)) (newDiscv5 localEnr).

(** The lookup id that call number [n + 1] of [findNode] is given. *)
Definition assignedLookupId (localEnr : ENR) (target : NodeId) (n : N) : Z :=
  match fst (findNode target (afterLookups localEnr target n)) with
  | Ok lookupId => lookupId
  | Throw => 0
  end.

End Runs.

(** ** A table and collaborators to run the service on *)

(** Modelled from the spec: [log2Distance] is the position of the
    highest-order 1-bit of the XOR of the two identifiers, 0 iff they are
    equal. *)
Definition refLog2Distance (a b : NodeId) : Z := Z.of_N (N.size (N.lxor a b)).

(** Modelled from the spec: the routing table of ../kademlia is not among
    the sources. Buckets hold at most [bucketSize] entries of one
    log2-distance from the local identifier, and each has a single pending
    slot; the operations are no-ops on absent entries; [valuesOfDistance]
    gives the records at exactly that distance, and the local record is
    not in the table. *)
Record RefTable := mkRefTable {
  localId : NodeId;
  bucketSize : Z;
  entries : list Entry;
  pending : list Entry
}.

Definition entryAt (t : RefTable) (d : Z) (e : Entry) : bool :=
  Z.eqb (refLog2Distance (localId t) (nodeId (value e))) d.

Definition entryOf (id : NodeId) (e : Entry) : bool := N.eqb (nodeId (value e)) id.

Definition refGetWithPending (t : RefTable) (id : NodeId) : option Entry :=
  match List.find (entryOf id) (entries t) with
  | Some e => Some e
  | None => List.find (entryOf id) (pending t)
  end.

Definition refAdd (t : RefTable) (enr : ENR) (st : EntryStatus) : RefTable * bool :=
  let d := refLog2Distance (localId t) (nodeId enr) in
  match refGetWithPending t (nodeId enr) with
  | Some _ => (t, false)
  | None =>
      if Z.eqb d 0 then (t, false)
      else if Z.ltb (Z.of_nat (length (List.filter (entryAt t d) (entries t)))) (bucketSize t)
      then (mkRefTable (localId t) (bucketSize t) (entries t ++ [mkEntry enr st]) (pending t), true)
      else if Nat.eqb (length (List.filter (entryAt t d) (pending t))) 0
      then (mkRefTable (localId t) (bucketSize t) (entries t) (pending t ++ [mkEntry enr st]), false)
      else (t, false)
  end.

Definition refAlter (f : Entry -> Entry) (id : NodeId) (t : RefTable) : RefTable :=
  let g := fun e => if entryOf id e then f e else e in
  mkRefTable (localId t) (bucketSize t) (map g (entries t)) (map g (pending t)).

Fixpoint insertByDistance (target : NodeId) (e : ENR) (l : list ENR) : list ENR :=
  match l with
  | [] => [e]
  | x :: l' =>
      if N.ltb (N.lxor (nodeId e) target) (N.lxor (nodeId x) target)
      then e :: x :: l'
      else x :: insertByDistance target e l'
  end.

Definition refNearest (t : RefTable) (target : NodeId) (n : Z) : list ENR :=
  take (Z.to_nat n) (fold_left (fun acc e => insertByDistance target e acc) (map value (entries t)) []).

#[global] Instance refTableOps : KademliaOps RefTable := {
  newTable local k := mkRefTable local k [] [];
  getValue t id := value <$> List.find (entryOf id) (entries t);
  getWithPending := refGetWithPending;
  add := refAdd;
  update t enr st := refAlter (fun _ => mkEntry enr st) (nodeId enr) t;
  updateValue t enr := refAlter (fun e => mkEntry enr (status e)) (nodeId enr) t;
  updateStatus t id st := refAlter (fun e => mkEntry (value e) st) id t;
  nearest := refNearest;
  valuesOfDistance t d := map value (List.filter (entryAt t d) (entries t));
  values t := map value (entries t);
  clearTable t := mkRefTable (localId t) (bucketSize t) [] []
}.

(** A session service that never throws, and one that always does; request
    ids 11, 12, 13, ... *)
Definition quiet : Collaborators := {|
  log2Distance := refLog2Distance;
  findNodeLog2Distance target peer := refLog2Distance target (peerNodeId peer);
  sessionThrows _ _ := false;
  requestIds n := 11 + Z.of_nat n
|}.

Definition failing : Collaborators := {|
  log2Distance := refLog2Distance;
  findNodeLog2Distance target peer := refLog2Distance target (peerNodeId peer);
  sessionThrows _ _ := true;
  requestIds n := 11 + Z.of_nat n
|}.

(** Sample records: the local node 0, and peers at log2-distance 200 from it. *)
Definition enrLocal : ENR := mkENR 0%N 1.
Definition enrQ : ENR := mkENR (2 ^ 199 + 9)%N 1.
Definition enrA : ENR := mkENR (2 ^ 199)%N 1.
Definition enrB : ENR := mkENR (2 ^ 199 + 1)%N 1.
Definition enrC : ENR := mkENR (2 ^ 199 + 2)%N 1.
Definition enrD : ENR := mkENR (2 ^ 199 + 3)%N 1.
Definition addrQ : Multiaddr := mkMultiaddr 167772161%N 9000.

(** ** Inputs for the statements at concrete values *)

(** A new instance for the local record. *)
Definition fresh : Discv5 RefTable := newDiscv5 enrLocal.

(** FINDNODE(id 7, distance) from Q, on a started instance with an empty table. *)
Definition findNodeFromQ (distance : Z) : list Event :=
  [EStart; EMessage (nodeId enrQ) addrQ (Request (IFindNodeMessage 7 distance))].

(** Q is in the table, a session with Q is established: the PING of
    [onEstablished] is registered under id 11 and Q's interval is armed. *)
Definition establishedQ (c : Collaborators) : Discv5 RefTable :=
  run (H := c) [EStart; EAddEnr enrQ; EEstablished enrQ] fresh.

(** Q is in the table and a lookup for target 9 probes Q: the FINDNODE for
    distance 200 is registered under id 11, for lookup 1. *)
Definition probingQ : list Event :=
  [EStart; EAddEnr enrQ; EFindNode 9%N; ELookupPeer 1 9%N (mkLookupPeer (nodeId enrQ) 1)].

(** Q answers in three packets. *)
Definition threePackets : list Event :=
  [EMessage (nodeId enrQ) addrQ (Response (INodesMessage 11 3 [enrA]));
   EMessage (nodeId enrQ) addrQ (Response (INodesMessage 11 3 [enrB; enrC]));
   EMessage (nodeId enrQ) addrQ (Response (INodesMessage 11 3 [enrD]))].

(** A lookup holds A among its untrusted ENRs; the table does not know A. *)
Definition untrustedA : Discv5 RefTable :=
  setActiveLookups [(1, mkLookup 9%N [] [enrA])] (run (H := quiet) [EStart] fresh).

(** Seven records at distance 200. *)
Definition sevenAt200 : Discv5 RefTable :=
  run (H := quiet)
    [EStart; EAddEnr enrA; EAddEnr enrB; EAddEnr enrC; EAddEnr enrD; EAddEnr enrQ;
     EAddEnr (mkENR (2 ^ 199 + 4)%N 1); EAddEnr (mkENR (2 ^ 199 + 5)%N 1)] fresh.

(** ** Predicates on computations and states *)

Section Predicates.

Context {KademliaRoutingTable : Type} `{!KademliaOps KademliaRoutingTable} `{!Collaborators}.

Local Abbreviation State := (Discv5 KademliaRoutingTable).

(** The effects of the sending loop: one call per packet, each with the
    next [nodesPerPacket] records. *)
Definition sendsChunk (src : Multiaddr) (srcId : NodeId) (id total : Z)
    (e : Effect) (chunk : list ENR) : Prop :=
  exists threw, e = Session (SendResponse src srcId (INodesMessage id total chunk)) threw.

(** While an accumulator for [id] exists, its counter is between 2 and
    [min total 5], and the request it belongs to is registered and is one
    whose NODES packets are accepted. *)
Definition accumulating (id total : Z) (s : State) : Prop :=
  match activeNodesResponses s !! id with
  | None => True
  | Some r =>
      2 <= count r <= Z.min total 5 /\
      exists ar, activeRequests s !! id = Some ar /\
                 requestMatchesResponse (fst ar) (INodesMessage id total []) = false
  end.

(** How many more packets can be accepted. *)
Definition budget (id : Z) (s : State) : nat :=
  match activeRequests s !! id with
  | None => 0
  | Some _ =>
      match activeNodesResponses s !! id with
      | None => 5
      | Some r => Z.to_nat (6 - count r)
      end
  end.

(** The ids are in range and the live lookups have distinct ids. *)
Definition lookupsOk (s : State) : Prop :=
  1 <= nextLookupId s <= 2 ^ 32 /\ NoDup (jsKeys (activeLookups s)).

(** Every accumulator has counted between 2 and 5 packets. *)
Definition countersOk (s : State) : Prop :=
  forall id r, activeNodesResponses s !! id = Some r -> 2 <= count r <= 5.


(** Every peer in [connectedPeers] has its interval armed, for itself; and
    the interval handles in use were all handed out. *)
Definition timersOk (s : State) : Prop :=
  (forall n h, connectedPeers s !! n = Some h -> intervals s !! h = Some n) /\
  (forall h n, intervals s !! h = Some n -> (h < timersCreated s)%nat).

(** Every entry of the request registry is filed under its request's id; a
    request with a lookup id is a FINDNODE for a distance that is not zero,
    one without is a PING or a FINDNODE for distance 0. *)
Definition registryOk (s : State) : Prop :=
  forall id req l, activeRequests s !! id = Some (req, l) ->
    reqId req = id /\
    match l with
    | Some _ => exists d, req = IFindNodeMessage id d /\ d <> 0
    | None => (exists q, req = IPingMessage id q) \/ req = IFindNodeMessage id 0
    end.

(** [clearInterval] on each handle of a list. *)
Definition clearAll (hs : list Timer) (i : gmap Timer NodeId) : gmap Timer NodeId :=
  fold_left (fun i h => delete h i) hs i.

(** The fields that only [onEstablished], [onRequestFailed] and [stop] write. *)
Definition sameTimers (s0 s : State) : Prop :=
  connectedPeers s = connectedPeers s0 /\ intervals s = intervals s0 /\
  timersCreated s = timersCreated s0.

(** The body of the loop of [discovered]. *)
Definition discoveredStep (e : ENR) : M (KademliaRoutingTable := KademliaRoutingTable) unit :=
  bind (emit (Discovered e)) (fun _ =>
  bind get (fun s =>
  match getWithPending (kbuckets s) (nodeId e) with
  | Some entry =>
      if Z.ltb (seq (value entry)) (seq e) then
        bind (modify (fun s => setKbuckets (updateValue (kbuckets s) e) s)) (fun _ =>
        effect (UpdateEnr e))
      else ret tt
  | None => effect (UpdateEnr e)
  end)).

(** The lookups after [discovered] has told the lookup [lookupId]. *)
Definition lookupsAfter (lookupId : option Z) (others : list ENR) (lks : list (Z * Lookup))
  : list (Z * Lookup) :=
  match lookupId with
  | Some l =>
      if Z.eqb l 0 then lks
      else match jsGet l lks with
           | Some lk =>
               jsSet l (mkLookup (target lk) (knownClosestPeers lk)
                          (fold_left pushUntrusted others (untrustedEnrs lk))) lks
           | None => lks
           end
  | None => lks
  end.


(** No ENR has come in: no [discovered] event was emitted, no accumulator
    holds an ENR and no live lookup holds an untrusted ENR. *)
Definition nothingFound (s : State) : Prop :=
  discoveredEnrs (trace s) = [] /\
  (forall id r, activeNodesResponses s !! id = Some r -> enrs r = []) /\
  Forall (fun lk => untrustedEnrs lk = []) (jsValues (activeLookups s)).

(** Every registered request went out: the session service's
    [sendRequest] was called with it and returned normally. *)
Definition registeredWentOut (s : State) : Prop :=
  forall id req l, activeRequests s !! id = Some (req, l) ->
    exists dst, In (Session (SendRequest dst req) false) (trace s).

End Predicates.

(** * Properties *)

Section Theory.

Context {KademliaRoutingTable : Type} `{!KademliaOps KademliaRoutingTable} `{!Collaborators}.

Local Abbreviation State := (Discv5 KademliaRoutingTable).

(** ** Reasoning in the monad *)

(** [m] never lets an exception out. *)
Definition nothrow {A} (m : M (KademliaRoutingTable := KademliaRoutingTable) A) : Prop :=
  forall s, returns m s.

(** [m] keeps [P], whether it returns or throws. *)
Definition preserves {A} (P : State -> Prop) (m : M A) : Prop :=
  forall s, P s -> P (exec m s).

(** A predicate that does not look at the trace, the id counter or the
    interval table is kept by every call that leaves the service. *)
Definition blind (P : State -> Prop) : Prop :=
  (forall s t, P s -> P (setTrace t s)) /\
  (forall s n, P s -> P (setIdsDrawn n s)) /\
  (forall s i n, P s -> P (setIntervals i n s)).

Lemma exec_bind {A B} (m : M A) (k : A -> M B) (s : State) :
  exec (bind m k) s =
  match m s with
  | (Ok a, s') => exec (k a) s'
  | (Throw, s') => s'
  end.
Proof. unfold exec, bind. destruct (m s) as [[a|] s']; reflexivity. Qed.

Lemma nothrow_ret {A} (a : A) : nothrow (ret a).
Proof. intros s. exists a. reflexivity. Qed.

Lemma nothrow_get : nothrow get.
Proof. intros s. exists s. reflexivity. Qed.

Lemma nothrow_modify f : nothrow (modify f).
Proof. intros s. exists tt. reflexivity. Qed.

Lemma nothrow_bind {A B} (m : M A) (k : A -> M B) :
  nothrow m -> (forall a, nothrow (k a)) -> nothrow (bind m k).
Proof.
  intros Hm Hk s. destruct (Hm s) as [a Ha]. unfold returns, bind.
  destruct (m s) as [r s'] eqn:E. simpl in Ha. subst r. apply Hk.
Qed.

Lemma nothrow_tryCatch (m : M unit) : nothrow (tryCatch m).
Proof.
  intros s. exists tt. unfold tryCatch.
  destruct (m s) as [[[]|] s']; reflexivity.
Qed.

Lemma nothrow_forEach {A} (l : list A) (body : A -> M unit) :
  (forall a, nothrow (body a)) -> nothrow (forEach l body).
Proof.
  intros Hb. induction l as [|a l IH]; simpl.
  - apply nothrow_ret.
  - apply nothrow_bind; auto.
Qed.

Lemma preserves_ret {A} P (a : A) : preserves P (ret a).
Proof. intros s Hs. exact Hs. Qed.

Lemma preserves_get P : preserves P get.
Proof. intros s Hs. exact Hs. Qed.

Lemma preserves_modify (P : State -> Prop) f :
  (forall s, P s -> P (f s)) -> preserves P (modify f).
Proof. intros Hf s Hs. apply Hf, Hs. Qed.

Lemma preserves_bind {A B} P (m : M A) (k : A -> M B) :
  preserves P m -> (forall a, preserves P (k a)) -> preserves P (bind m k).
Proof.
  intros Hm Hk s Hs. rewrite exec_bind. specialize (Hm s Hs). unfold exec in Hm.
  destruct (m s) as [[a|] s']; simpl in Hm; [apply Hk|]; exact Hm.
Qed.

Lemma preserves_tryCatch P (m : M unit) : preserves P m -> preserves P (tryCatch m).
Proof.
  intros Hm s Hs. specialize (Hm s Hs). unfold exec, tryCatch in *.
  destruct (m s) as [[a|] s']; exact Hm.
Qed.

Lemma preserves_forEach {A} P (l : list A) (body : A -> M unit) :
  (forall a, preserves P (body a)) -> preserves P (forEach l body).
Proof.
  intros Hb. induction l as [|a l IH]; simpl.
  - apply preserves_ret.
  - apply preserves_bind; auto.
Qed.

Lemma preserves_effect P e : blind P -> preserves P (effect e).
Proof. intros HP. apply preserves_modify. intros s. apply HP. Qed.

Lemma preserves_sessionService P c : blind P -> preserves P (sessionService c).
Proof.
  intros HP s Hs. unfold exec, sessionService.
  destruct (sessionThrows (trace s) c); simpl; apply HP, Hs.
Qed.

Lemma preserves_createRequestId P : blind P -> preserves P createRequestId.
Proof. intros HP s Hs. unfold exec, createRequestId. simpl. apply HP, Hs. Qed.

Lemma preserves_setInterval P n : blind P -> preserves P (setInterval n).
Proof. intros HP s Hs. unfold exec, setInterval. simpl. apply HP, Hs. Qed.

Lemma preserves_clearInterval P h : blind P -> preserves P (clearInterval h).
Proof.
  intros HP. destruct h; simpl; [|apply preserves_ret].
  apply preserves_modify. intros s. apply HP.
Qed.

(** Splits a [preserves] goal along the structure of the method. *)
Ltac step_preserves :=
  match goal with
  | |- preserves _ (bind _ _) => apply preserves_bind; [|intros ?]
  | |- preserves _ (ret _) => apply preserves_ret
  | |- preserves _ get => apply preserves_get
  | |- preserves _ (tryCatch _) => apply preserves_tryCatch
  | |- preserves _ (forEach _ _) => apply preserves_forEach; intros ?
  | |- preserves _ (effect _) => apply preserves_effect; assumption
  | |- preserves _ (emit _) => apply preserves_effect; assumption
  | |- preserves _ (sessionService _) => apply preserves_sessionService; assumption
  | |- preserves _ createRequestId => apply preserves_createRequestId; assumption
  | |- preserves _ (createPingMessage _) => unfold createPingMessage
  | |- preserves _ (createFindNodeMessage _) => unfold createFindNodeMessage
  | |- preserves _ (setInterval _) => apply preserves_setInterval; assumption
  | |- preserves _ (clearInterval _) => apply preserves_clearInterval; assumption
  | |- preserves _ (modify _) => apply preserves_modify
  | |- preserves _ (match ?x with _ => _ end) => destruct x
  | |- preserves _ (let (_, _) := ?x in _) => destruct x
  | H : _ |- preserves _ _ => solve [apply H; assumption]
  end.

(** ** Exceptions stay inside *)

Lemma nothrow_effect e : nothrow (effect e).
Proof. apply nothrow_modify. Qed.

Lemma nothrow_createRequestId : nothrow createRequestId.
Proof. intros s. eexists. reflexivity. Qed.

Lemma nothrow_sendRequest n req l : nothrow (sendRequest n req l).
Proof.
  unfold sendRequest. apply nothrow_bind; [apply nothrow_get|]. intros s.
  destruct (getValue (kbuckets s) n); [apply nothrow_tryCatch|apply nothrow_ret].
Qed.

(** ** sendRequest *)

Lemma sendRequest_unknown (s : State) n req l :
  getValue (kbuckets s) n = None -> sendRequest n req l s = (Ok tt, s).
Proof. intros Hn. unfold sendRequest, bind, get. rewrite Hn. reflexivity. Qed.

Lemma sendRequest_known (s : State) n req l dstEnr :
  getValue (kbuckets s) n = Some dstEnr ->
  sendRequest n req l s =
  let s' := setTrace (trace s ++ [Session (SendRequest dstEnr req)
                                    (sessionThrows (trace s) (SendRequest dstEnr req))]) s in
  if sessionThrows (trace s) (SendRequest dstEnr req)
  then (Ok tt, s')
  else (Ok tt, setActiveRequests (<[reqId req := (req, l)]> (activeRequests s)) s').
Proof.
  intros Hn. unfold sendRequest, bind, get. rewrite Hn.
  unfold tryCatch, sessionService, modify.
  destruct (sessionThrows (trace s) (SendRequest dstEnr req)); reflexivity.
Qed.

(** C9. When the session service's [sendRequest] throws, [sendRequest]
    returns normally and the request registry is what it was before the
    call; the only mark the call leaves is the record of the attempt. *)
Theorem C9_sendRequest_throw_swallowed (s : State) n req l dstEnr :
  getValue (kbuckets s) n = Some dstEnr ->
  sessionThrows (trace s) (SendRequest dstEnr req) = true ->
  fst (sendRequest n req l s) = Ok tt /\
  activeRequests (exec (sendRequest n req l) s) = activeRequests s /\
  exec (sendRequest n req l) s =
    setTrace (trace s ++ [Session (SendRequest dstEnr req) true]) s.
Proof.
  intros Hn Ht. unfold exec. rewrite (sendRequest_known _ _ _ _ _ Hn), Ht.
  simpl. auto.
Qed.

(** C10. With no ENR for the node in the routing table, [sendRequest] does
    nothing at all: it returns, and the state, with the registry and the
    record of what was handed to the session service, is unchanged. A probe
    of [sendLookup] toward such a peer hands nothing to the session
    service and registers nothing, whatever the lookups' untrusted ENRs
    hold; when the distance is not zero the only change is that a request id
    was drawn, and no lookup is told. *)
Theorem C10_no_enr_no_request (s : State) n req l lookupId tgt peer :
  getValue (kbuckets s) n = None ->
  getValue (kbuckets s) (peerNodeId peer) = None ->
  sendRequest n req l s = (Ok tt, s) /\
  fst (sendLookup lookupId tgt peer s) = Ok tt /\
  activeRequests (exec (sendLookup lookupId tgt peer) s) = activeRequests s /\
  sessionCalls (trace (exec (sendLookup lookupId tgt peer) s)) = sessionCalls (trace s) /\
  (findNodeLog2Distance tgt peer <> 0 ->
   exec (sendLookup lookupId tgt peer) s = setIdsDrawn (S (idsDrawn s)) s).
Proof.
  intros Hn Hp. split; [apply sendRequest_unknown, Hn|].
  unfold sendLookup, exec.
  destruct (Z.eqb_spec (findNodeLog2Distance tgt peer) 0) as [Hd|Hd].
  - unfold bind, get.
    destruct (jsGet lookupId (activeLookups s)); simpl;
      repeat split; try reflexivity; try congruence.
    unfold sessionCalls. rewrite omap_app. simpl. apply app_nil_r.
  - unfold bind, createFindNodeMessage, createRequestId, bind, ret.
    rewrite sendRequest_unknown by exact Hp. simpl. auto.
Qed.

(** ** retrieveRequest *)

Lemma retrieveRequest_eq (s : State) srcId message :
  retrieveRequest srcId message s =
  match activeRequests s !! resId message with
  | None => (Ok None, s)
  | Some r =>
      (Ok (if requestMatchesResponse (fst r) message then None else Some r),
       setActiveRequests (delete (resId message) (activeRequests s)) s)
  end.
Proof.
  unfold retrieveRequest, bind, get.
  destruct (activeRequests s !! resId message) as [r|]; [|reflexivity].
  unfold modify, ret. destruct (requestMatchesResponse (fst r) message); reflexivity.
Qed.

(** [retrieveRequest] hands the stored request back exactly when the id is
    registered and [requestMatchesResponse] is false; the entry is removed
    whenever the id was registered. *)
Lemma retrieveRequest_accepts (s : State) srcId message :
  (forall r, fst (retrieveRequest srcId message s) = Ok (Some r) <->
             activeRequests s !! resId message = Some r /\
             requestMatchesResponse (fst r) message = false) /\
  (is_Some (activeRequests s !! resId message) ->
   activeRequests (exec (retrieveRequest srcId message) s) !! resId message = None).
Proof.
  unfold exec. rewrite retrieveRequest_eq. split.
  - intros r. destruct (activeRequests s !! resId message) as [r'|]; simpl.
    + destruct (requestMatchesResponse (fst r') message) eqn:E; split.
      * discriminate.
      * intros [Hr Hm]. inversion Hr; subst. congruence.
      * intros Hr. inversion Hr; subst. auto.
      * intros [Hr _]. congruence.
    + split; [discriminate|]. intros [Hr _]. discriminate.
  - intros [r Hr]. rewrite Hr. simpl. apply lookup_delete_eq.
Qed.

(** ** What the handlers leave alone *)

Lemma blind_registry R N :
  blind (fun s : State => activeRequests s = R /\ activeNodesResponses s = N).
Proof. repeat split; intros; tauto. Qed.

Lemma discovered_registry srcId es l R N :
  preserves (fun s : State => activeRequests s = R /\ activeNodesResponses s = N)
    (discovered srcId es l).
Proof.
  pose proof (blind_registry R N) as HP.
  unfold discovered. repeat step_preserves; intros; assumption.
Qed.

Lemma connectionUpdated_registry n e st R N :
  preserves (fun s : State => activeRequests s = R /\ activeNodesResponses s = N)
    (connectionUpdated n e st).
Proof.
  pose proof (blind_registry R N) as HP.
  unfold connectionUpdated. repeat step_preserves; intros; assumption.
Qed.

Lemma blind_requests R : blind (fun s : State => activeRequests s = R).
Proof. repeat split; intros; assumption. Qed.

(** [onRequestFailed] never writes to the request registry. *)
Lemma onRequestFailed_requests srcId rpcId (s : State) :
  activeRequests (exec (onRequestFailed srcId rpcId) s) = activeRequests s.
Proof.
  assert (Hk : preserves (fun s' : State => activeRequests s' = activeRequests s)
                 (onRequestFailed srcId rpcId)).
  { pose proof (blind_requests (activeRequests s)) as HP.
    assert (Hd : forall es l, preserves (fun s' : State => activeRequests s' = activeRequests s)
                                (discovered srcId es l)).
    { intros es l s' Hs'.
      apply (discovered_registry srcId es l _ (activeNodesResponses s') s'). auto. }
    assert (Hc : forall st, preserves (fun s' : State => activeRequests s' = activeRequests s)
                              (connectionUpdated srcId None st)).
    { intros st s' Hs'.
      apply (connectionUpdated_registry srcId None st _ (activeNodesResponses s') s'). auto. }
    unfold onRequestFailed. repeat step_preserves; intros; assumption. }
  apply Hk. reflexivity.
Qed.

(** ** onFindNode *)

Lemma nodesPerPacket_eq : nodesPerPacket = 3.
Proof. reflexivity. Qed.

Lemma ceilDiv_bounds n k : 0 < k -> k * (ceilDiv n k - 1) < n <= k * ceilDiv n k.
Proof.
  intros Hk. unfold ceilDiv.
  pose proof (Z.div_mod (n + k - 1) k ltac:(lia)).
  pose proof (Z.mod_pos_bound (n + k - 1) k Hk). lia.
Qed.

Lemma tryCatch_sessionService (s : State) c :
  tryCatch (sessionService c) s =
  (Ok tt, setTrace (trace s ++ [Session c (sessionThrows (trace s) c)]) s).
Proof.
  unfold tryCatch, sessionService. destruct (sessionThrows (trace s) c); reflexivity.
Qed.

Lemma sessionCalls_app t1 t2 : sessionCalls (t1 ++ t2) = sessionCalls t1 ++ sessionCalls t2.
Proof. apply omap_app. Qed.

Lemma sendsChunk_calls src srcId id total new chunks :
  Forall2 (sendsChunk src srcId id total) new chunks ->
  sessionCalls new = map (fun c => SendResponse src srcId (INodesMessage id total c)) chunks.
Proof.
  induction 1 as [|e c new chunks [b ->] _ IH]; [reflexivity|].
  unfold sessionCalls in *. simpl. f_equal. exact IH.
Qed.

Lemma sendNodesFrom_spec nodes src srcId id total fuel : forall i (s : State),
  0 <= i ->
  Z.of_nat (length nodes) - i <= Z.of_nat fuel ->
  exists new chunks,
    sendNodesFrom fuel i nodes src srcId id total s = (Ok tt, setTrace (trace s ++ new) s) /\
    Forall2 (sendsChunk src srcId id total) new chunks /\
    concat chunks = drop (Z.to_nat i) nodes /\
    Z.of_nat (length chunks) = ceilDiv (Z.max 0 (Z.of_nat (length nodes) - i)) nodesPerPacket.
Proof.
  assert (Hstop : forall i (s : State), Z.of_nat (length nodes) <= i -> 0 <= i ->
            (Ok tt, s) = (Ok tt, setTrace (trace s ++ []) s) /\
            Forall2 (sendsChunk src srcId id total) [] [] /\
            concat [] = drop (Z.to_nat i) nodes /\
            Z.of_nat (length (@nil (list ENR))) =
              ceilDiv (Z.max 0 (Z.of_nat (length nodes) - i)) nodesPerPacket).
  { intros i s Hi Hi0. repeat split.
    - rewrite app_nil_r. destruct s; reflexivity.
    - constructor.
    - symmetry. apply drop_ge. lia.
    - replace (Z.max 0 (Z.of_nat (length nodes) - i)) with 0 by lia. reflexivity. }
  induction fuel as [|fuel IH]; intros i s Hi Hfuel.
  - exists [], []. simpl. apply Hstop; lia.
  - simpl. destruct (Z.ltb_spec i (Z.of_nat (length nodes))) as [Hlt|Hge].
    + unfold bind at 1. rewrite tryCatch_sessionService.
      set (e := Session _ _). set (s1 := setTrace (trace s ++ [e]) s).
      destruct (IH (i + nodesPerPacket) s1) as (new & chunks & Hrun & Hnew & Hcat & Hlen).
      { rewrite nodesPerPacket_eq. lia. }
      { rewrite nodesPerPacket_eq. lia. }
      exists (e :: new), (slice i (i + nodesPerPacket) nodes :: chunks).
      split; [|split; [|split]].
      * rewrite Hrun. subst s1. simpl. rewrite <- app_assoc. reflexivity.
      * constructor; [eexists; reflexivity|exact Hnew].
      * simpl. rewrite Hcat. unfold slice.
        replace (i + nodesPerPacket - i) with nodesPerPacket by lia.
        replace (Z.to_nat (i + nodesPerPacket))
          with (Z.to_nat i + Z.to_nat nodesPerPacket)%nat
          by (rewrite nodesPerPacket_eq; lia).
        rewrite <- drop_drop. apply take_drop.
      * simpl length. rewrite Nat2Z.inj_succ, Hlen.
        rewrite nodesPerPacket_eq. unfold ceilDiv.
        destruct (Z.max_spec 0 (Z.of_nat (length nodes) - (i + 3))) as [[? ->]|[? ->]];
          destruct (Z.max_spec 0 (Z.of_nat (length nodes) - i)) as [[? ->]|[? ->]];
          try lia.
        -- replace (Z.of_nat (length nodes) - i + 3 - 1)
             with (Z.of_nat (length nodes) - (i + 3) + 3 - 1 + 1 * 3) by lia.
           rewrite Z.div_add by lia. lia.
        -- assert (Hq : (Z.of_nat (length nodes) - i + 3 - 1) / 3 = 1).
           { symmetry. apply (Z.div_unique _ 3 1 (Z.of_nat (length nodes) - i + 3 - 1 - 3)); lia. }
           rewrite Hq. reflexivity.
    + exists [], []. apply Hstop; lia.
Qed.

(** What [onFindNode] hands to the session service when it is asked for a
    distance that is not zero and the table has records there. *)
Lemma onFindNode_nonempty (s : State) srcId src id distance :
  distance <> 0 ->
  valuesOfDistance (kbuckets s) distance <> [] ->
  let nodes := valuesOfDistance (kbuckets s) distance in
  let total := ceilDiv (Z.of_nat (length nodes)) nodesPerPacket in
  exists new chunks,
    onFindNode srcId src id distance s = (Ok tt, setTrace (trace s ++ new) s) /\
    Forall2 (sendsChunk src srcId id total) new chunks /\
    concat chunks = nodes /\
    Z.of_nat (length chunks) = total.
Proof.
  intros Hd Hne nodes total. unfold onFindNode.
  destruct (Z.eqb_spec distance 0) as [|_]; [contradiction|].
  unfold bind at 1. unfold ret at 1. unfold bind, get. fold nodes.
  destruct (Nat.eqb_spec (length nodes) 0) as [Hz|Hnz].
  { exfalso. apply Hne. apply length_zero_iff_nil. exact Hz. }
  fold total.
  destruct (sendNodesFrom_spec nodes src srcId id total (length nodes) 0 s)
    as (new & chunks & Hrun & Hnew & Hcat & Hlen); [lia|lia|].
  exists new, chunks. repeat split; try assumption.
  rewrite Hlen. unfold total. f_equal. lia.
Qed.

(** What [onFindNode] hands to the session service when the table has no
    record at the distance asked for, and the distance is not zero. *)
Lemma onFindNode_empty (s : State) srcId src id distance :
  distance <> 0 ->
  valuesOfDistance (kbuckets s) distance = [] ->
  onFindNode srcId src id distance s =
  (Ok tt, setTrace (trace s ++ [Session (SendResponse src srcId (INodesMessage id 0 []))
                                  (sessionThrows (trace s)
                                     (SendResponse src srcId (INodesMessage id 0 [])))]) s).
Proof.
  intros Hd He. unfold onFindNode.
  destruct (Z.eqb_spec distance 0) as [|_]; [contradiction|].
  unfold bind at 1. unfold ret at 1. unfold bind, get. rewrite He. simpl.
  apply tryCatch_sessionService.
Qed.

(** C8. Asked for a distance above zero at which the table holds [n > 0]
    records, [onFindNode] returns after handing the session service exactly
    [ceil (n / nodesPerPacket)] NODES messages and nothing else, where
    [nodesPerPacket] is 3; all carry the request's id and that number as
    their total, and their ENR lists, in order, concatenate to the table's
    records. *)
Theorem C8_findNode_splits_nodes (s : State) srcId src id distance :
  0 < distance ->
  0 < Z.of_nat (length (valuesOfDistance (kbuckets s) distance)) ->
  let nodes := valuesOfDistance (kbuckets s) distance in
  let n := Z.of_nat (length nodes) in
  let total := ceilDiv n nodesPerPacket in
  nodesPerPacket = (1280 - 92) / 300 /\ nodesPerPacket = 3 /\
  3 * (total - 1) < n <= 3 * total /\
  fst (onFindNode srcId src id distance s) = Ok tt /\
  exists new chunks,
    trace (exec (onFindNode srcId src id distance) s) = trace s ++ new /\
    length new = length chunks /\
    sessionCalls new = map (fun c => SendResponse src srcId (INodesMessage id total c)) chunks /\
    Z.of_nat (length chunks) = total /\
    concat chunks = nodes.
Proof.
  intros Hd Hlen0 nodes n total.
  assert (Hne : valuesOfDistance (kbuckets s) distance <> []).
  { intros He. rewrite He in Hlen0. simpl in Hlen0. lia. }
  split; [reflexivity|]. split; [reflexivity|].
  split; [apply (ceilDiv_bounds n 3); lia|].
  destruct (onFindNode_nonempty s srcId src id distance ltac:(lia) Hne)
    as (new & chunks & Hrun & Hnew & Hcat & Hlen).
  unfold exec. rewrite Hrun. split; [reflexivity|].
  exists new, chunks. repeat split; try assumption.
  - eapply Forall2_length, Hnew.
  - apply sendsChunk_calls, Hnew.
Qed.

(** ** onNodes *)

Lemma exec_get_bind {A} (k : State -> M A) (s : State) :
  exec (bind get k) s = exec (k s) s.
Proof. reflexivity. Qed.

Lemma exec_modify_bind {A} f (k : unit -> M A) (s : State) :
  exec (bind (modify f) k) s = exec (k tt) (f s).
Proof. reflexivity. Qed.

(** What [onNodes] does to the two maps keyed by the request id. *)
Lemma onNodes_registry (s : State) srcId src id total enrs0 :
  let s' := exec (onNodes srcId src id total enrs0) s in
  match activeRequests s !! id with
  | None => s' = s
  | Some ar =>
      if requestMatchesResponse (fst ar) (INodesMessage id total enrs0)
      then s' = setActiveRequests (delete id (activeRequests s)) s
      else
        let cur := default (mkNodesResponse 1 []) (activeNodesResponses s !! id) in
        if Z.gtb total 1 && (Z.ltb (count cur) 5 && Z.ltb (count cur) total)
        then s' = setActiveNodesResponses
                    (<[id := mkNodesResponse (count cur + 1) (enrs cur)]>
                       (delete id (activeNodesResponses s)))
                    (setActiveRequests (<[id := ar]> (delete id (activeRequests s))) s)
        else activeRequests s' = delete id (activeRequests s) /\
             activeNodesResponses s' = delete id (activeNodesResponses s)
  end.
Proof.
  intros s'. subst s'.
  unfold onNodes. rewrite exec_bind, retrieveRequest_eq. simpl resId.
  destruct (activeRequests s !! id) as [[request lookupId]|]; [|reflexivity].
  simpl fst.
  destruct (requestMatchesResponse request (INodesMessage id total enrs0)); [reflexivity|].
  rewrite exec_get_bind.
  set (s1 := setActiveRequests _ s).
  destruct (Z.gtb total 1); simpl andb; cbv iota.
  - rewrite exec_get_bind, exec_modify_bind.
    simpl activeNodesResponses.
    destruct (Z.ltb _ 5 && Z.ltb _ total).
    + reflexivity.
    + rewrite exec_modify_bind.
      apply (discovered_registry srcId _ lookupId
               (delete id (activeRequests s)) (delete id (activeNodesResponses s))).
      simpl. rewrite delete_delete_eq. split; reflexivity.
  - rewrite exec_modify_bind.
    apply (discovered_registry srcId _ lookupId
             (delete id (activeRequests s)) (delete id (activeNodesResponses s))).
    simpl. split; reflexivity.
Qed.

(** The ENRs of a packet never reach the accumulator. *)
Lemma onNodes_accumulator_enrs (s : State) srcId src id total enrs0 r :
  activeNodesResponses (exec (onNodes srcId src id total enrs0) s) !! id = Some r ->
  enrs r = enrs (default (mkNodesResponse 1 []) (activeNodesResponses s !! id)).
Proof.
  pose proof (onNodes_registry s srcId src id total enrs0) as Hr. simpl in Hr.
  destruct (activeRequests s !! id) as [ar|].
  - destruct (requestMatchesResponse (fst ar) (INodesMessage id total enrs0)).
    + rewrite Hr. simpl. intros ->. reflexivity.
    + destruct (Z.gtb total 1 && _).
      * rewrite Hr. simpl. rewrite lookup_insert_eq. intros [= <-]. reflexivity.
      * destruct Hr as [_ ->]. rewrite lookup_delete_eq. discriminate.
  - rewrite Hr. intros ->. reflexivity.
Qed.

(** An unregistered id: the packet changes nothing. *)
Lemma onNodes_unregistered (s : State) srcId src id total enrs0 :
  activeRequests s !! id = None ->
  exec (onNodes srcId src id total enrs0) s = s.
Proof.
  intros Hn. pose proof (onNodes_registry s srcId src id total enrs0) as Hr.
  simpl in Hr. rewrite Hn in Hr. exact Hr.
Qed.

Lemma accepted_eq (s : State) srcId id total enrs0 :
  accepted srcId id total enrs0 s =
  match activeRequests s !! id with
  | None => false
  | Some ar => negb (requestMatchesResponse (fst ar) (INodesMessage id total enrs0))
  end.
Proof.
  unfold accepted. rewrite retrieveRequest_eq. simpl resId.
  destruct (activeRequests s !! id) as [ar|]; [|reflexivity]. simpl.
  destruct (requestMatchesResponse _ _); reflexivity.
Qed.

Lemma onNodes_accumulating (s : State) srcId src id total enrs0 :
  accumulating id total s ->
  accumulating id total (exec (onNodes srcId src id total enrs0) s) /\
  ((if accepted srcId id total enrs0 s then 1 else 0)
   + budget id (exec (onNodes srcId src id total enrs0) s) <= budget id s)%nat.
Proof.
  intros Hacc. pose proof (onNodes_registry s srcId src id total enrs0) as Hr.
  simpl in Hr. rewrite accepted_eq. unfold accumulating, budget in *.
  destruct (activeRequests s !! id) as [ar|] eqn:Har.
  - change (requestMatchesResponse (fst ar) (INodesMessage id total enrs0))
      with (requestMatchesResponse (fst ar) (INodesMessage id total [])) in *.
    destruct (requestMatchesResponse (fst ar) (INodesMessage id total [])) eqn:Hm.
    + rewrite Hr. simpl. rewrite lookup_delete_eq.
      destruct (activeNodesResponses s !! id) as [r|]; [|split; [exact I|lia]].
      destruct Hacc as [_ (ar' & Har' & Hm')]. congruence.
    + simpl negb.
      destruct (Z.gtb_spec total 1) as [Ht|Ht]; simpl andb in Hr.
      * destruct (activeNodesResponses s !! id) as [r|] eqn:Hn; simpl in Hr.
        -- destruct Hacc as [Hc _].
           destruct (Z.ltb_spec (count r) 5) as [H5|H5];
             destruct (Z.ltb_spec (count r) total) as [Hlt|Hlt]; simpl in Hr.
           ++ rewrite Hr. simpl. rewrite !lookup_insert_eq. simpl. split; [|lia].
              split; [lia|]. eauto.
           ++ destruct Hr as [-> ->]. rewrite !lookup_delete_eq. split; [exact I|lia].
           ++ destruct Hr as [-> ->]. rewrite !lookup_delete_eq. split; [exact I|lia].
           ++ destruct Hr as [-> ->]. rewrite !lookup_delete_eq. split; [exact I|lia].
        -- destruct (Z.ltb_spec 1 total) as [Hlt|Hlt]; [|lia]. simpl in Hr.
           rewrite Hr. simpl. rewrite !lookup_insert_eq. simpl. split; [|lia].
           split; [lia|]. eauto.
      * destruct Hr as [-> ->]. rewrite !lookup_delete_eq. split; [exact I|].
        destruct (activeNodesResponses s !! id); lia.
  - rewrite Hr, Har. split; [exact Hacc|lia].
Qed.

Lemma accumulating_budget id total (s : State) :
  accumulating id total s -> (budget id s <= 5)%nat.
Proof.
  unfold accumulating, budget. intros Hacc.
  destruct (activeRequests s !! id); [|lia].
  destruct (activeNodesResponses s !! id); [|lia].
  destruct Hacc as [Hc _]. lia.
Qed.

Lemma receiveNodes_app (s : State) srcId src id total l1 l2 :
  receiveNodes srcId src id total (l1 ++ l2) s =
  receiveNodes srcId src id total l2 (receiveNodes srcId src id total l1 s).
Proof. apply fold_left_app. Qed.

Lemma receiveNodes_accumulating srcId src id total packets : forall s : State,
  accumulating id total s ->
  accumulating id total (receiveNodes srcId src id total packets s) /\
  (acceptedCount srcId src id total packets s <= budget id s)%nat.
Proof.
  induction packets as [|p ps IH]; intros s Hacc; simpl.
  - split; [exact Hacc|lia].
  - destruct (onNodes_accumulating s srcId src id total p Hacc) as [Hacc' Hb].
    destruct (IH _ Hacc') as [Hfin Hcnt]. split; [exact Hfin|].
    unfold receiveNodes in *. lia.
Qed.

Lemma receiveNodes_unregistered srcId src id total packets : forall s : State,
  activeRequests s !! id = None ->
  receiveNodes srcId src id total packets s = s /\
  acceptedCount srcId src id total packets s = 0%nat.
Proof.
  induction packets as [|p ps IH]; intros s Hn; simpl; [auto|].
  rewrite accepted_eq, Hn, (onNodes_unregistered s srcId src id total p Hn).
  apply IH, Hn.
Qed.

(** *** The counters over whole runs *)

Lemma blind_countersOk : blind countersOk.
Proof.
  split; [|split]; [intros s t Hs|intros s n Hs|intros s i n Hs]; exact Hs.
Qed.

Ltac keep_countersOk :=
  let s := fresh "s" in let Hs := fresh "Hs" in
  let i := fresh "i" in let r := fresh "r" in let Hr := fresh "Hr" in
  intros s Hs; first
    [ exact Hs
    | intros i r Hr; simpl in Hr;
      first [ apply lookup_delete_Some in Hr; destruct Hr as [_ Hr]; exact (Hs i r Hr)
            | rewrite lookup_empty in Hr; discriminate Hr ] ].

Lemma discovered_countersOk srcId es l : preserves countersOk (discovered srcId es l).
Proof.
  intros s Hs i r Hr.
  destruct (discovered_registry srcId es l (activeRequests s) (activeNodesResponses s) s
              (conj eq_refl eq_refl)) as [_ Hn].
  rewrite Hn in Hr. exact (Hs i r Hr).
Qed.

Lemma connectionUpdated_countersOk n e st : preserves countersOk (connectionUpdated n e st).
Proof.
  intros s Hs i r Hr.
  destruct (connectionUpdated_registry n e st (activeRequests s) (activeNodesResponses s) s
              (conj eq_refl eq_refl)) as [_ Hn].
  rewrite Hn in Hr. exact (Hs i r Hr).
Qed.

Lemma onNodes_countersOk srcId src id total enrs0 :
  preserves countersOk (onNodes srcId src id total enrs0).
Proof.
  intros s Hs. pose proof (onNodes_registry s srcId src id total enrs0) as Hreg.
  simpl in Hreg.
  destruct (activeRequests s !! id) as [ar|]; [|rewrite Hreg; exact Hs].
  destruct (requestMatchesResponse (fst ar) (INodesMessage id total enrs0));
    [rewrite Hreg; exact Hs|].
  destruct (Z.gtb total 1 && _) eqn:Hmore.
  - rewrite Hreg. intros i r. simpl.
    destruct (decide (id = i)) as [<-|Hne].
    + rewrite lookup_insert_eq. intros [= <-]. simpl.
      apply andb_true_iff in Hmore. destruct Hmore as [_ Hc].
      apply andb_true_iff in Hc. destruct Hc as [H5 _]. apply Z.ltb_lt in H5.
      destruct (activeNodesResponses s !! id) as [r0|] eqn:Hr0; simpl in *; [|lia].
      specialize (Hs id r0 Hr0). lia.
    + rewrite lookup_insert_ne, lookup_delete_ne by exact Hne. apply Hs.
  - destruct Hreg as [_ Hn]. intros i r Hr. rewrite Hn in Hr.
    apply lookup_delete_Some in Hr. destruct Hr as [_ Hr]. exact (Hs i r Hr).
Qed.

Lemma sendRequest_countersOk n req l : preserves countersOk (sendRequest n req l).
Proof.
  pose proof blind_countersOk as HP.
  unfold sendRequest. repeat step_preserves; keep_countersOk.
Qed.

Lemma sendPing_countersOk n : preserves countersOk (sendPing n).
Proof.
  pose proof blind_countersOk as HP. pose proof sendRequest_countersOk as Hs.
  unfold sendPing. repeat step_preserves; keep_countersOk.
Qed.

Lemma retrieveRequest_countersOk srcId m : preserves countersOk (retrieveRequest srcId m).
Proof.
  pose proof blind_countersOk as HP.
  unfold retrieveRequest. repeat step_preserves; keep_countersOk.
Qed.

Lemma sendNodesFrom_countersOk fuel nodes src srcId id total :
  forall i, preserves countersOk (sendNodesFrom fuel i nodes src srcId id total).
Proof.
  pose proof blind_countersOk as HP.
  induction fuel as [|fuel IH]; intros i; simpl; repeat step_preserves.
Qed.

(** Every reactor input keeps the accumulators' counters between 2 and 5. *)
Lemma handle_countersOk e : preserves countersOk (handle e).
Proof.
  pose proof blind_countersOk as HP.
  pose proof sendRequest_countersOk as H1. pose proof sendPing_countersOk as H2.
  pose proof discovered_countersOk as H3. pose proof connectionUpdated_countersOk as H4.
  pose proof retrieveRequest_countersOk as H5. pose proof sendNodesFrom_countersOk as H6.
  pose proof onNodes_countersOk as H7.
  destruct e; simpl;
    unfold whenStarted, start, stop, addEnr, findNode, sendLookup, onLookupFinished,
      onPendingEviction, onAppliedEviction, onEstablished, onMessage,
      onWhoAreYouRequest, onRequestFailed, onInterval;
    repeat step_preserves;
    unfold onPing, onPong, onFindNode, requestEnr;
    repeat step_preserves; try keep_countersOk.
Qed.

Lemma run_countersOk events : forall s : State, countersOk s -> countersOk (run events s).
Proof.
  induction events as [|e es IH]; intros s Hs; simpl; [exact Hs|].
  apply IH, handle_countersOk, Hs.
Qed.

Lemma newDiscv5_countersOk e : countersOk (newDiscv5 e : State).
Proof. intros i r Hr. simpl in Hr. rewrite lookup_empty in Hr. discriminate Hr. Qed.

(** C6. From the moment a request has no accumulator, and for every
    sequence of NODES packets that carry its id: the counter of the
    accumulator never exceeds [min total 5]; at most 5 packets are
    accepted; and when the counter has reached [min total 5] the next
    packet is accepted and finalizes the response, which clears the
    request and the accumulator, after which no packet with that id is
    accepted or changes anything. And whatever inputs a new instance has
    handled, no accumulator's counter is above 5. *)
Theorem C6_nodes_packets_capped (s : State) srcId src id total packets :
  activeNodesResponses s !! id = None ->
  (forall k r,
     activeNodesResponses (receiveNodes srcId src id total (take k packets) s) !! id = Some r ->
     count r <= Z.min total 5) /\
  (acceptedCount srcId src id total packets s <= 5)%nat /\
  (forall k r p,
     let sk := receiveNodes srcId src id total (take k packets) s in
     activeNodesResponses sk !! id = Some r ->
     count r = Z.min total 5 ->
     packets !! k = Some p ->
     let sk' := exec (onNodes srcId src id total p) sk in
     accepted srcId id total p sk = true /\
     activeRequests sk' !! id = None /\
     activeNodesResponses sk' !! id = None /\
     forall more,
       acceptedCount srcId src id total more sk' = 0%nat /\
       receiveNodes srcId src id total more sk' = sk') /\
  (forall localEnr events i r,
     activeNodesResponses (run events (newDiscv5 localEnr) : State) !! i = Some r ->
     count r <= 5).
Proof.
  intros Hnone.
  assert (Hacc : accumulating id total s) by (unfold accumulating; rewrite Hnone; exact I).
  assert (Hk : forall k, accumulating id total (receiveNodes srcId src id total (take k packets) s)).
  { intros k. apply receiveNodes_accumulating, Hacc. }
  split; [|split; [|split]]; cycle 3.
  - intros localEnr events i r Hr.
    apply (run_countersOk events _ (newDiscv5_countersOk localEnr) i r Hr).
  - intros k r Hr. specialize (Hk k). unfold accumulating in Hk. rewrite Hr in Hk. lia.
  - destruct (receiveNodes_accumulating srcId src id total packets s Hacc) as [_ Hc].
    pose proof (accumulating_budget id total s Hacc). lia.
  - intros k r p sk Hr Hcount Hp sk'. specialize (Hk k). fold sk in Hk.
    unfold accumulating in Hk. rewrite Hr in Hk.
    destruct Hk as [Hc (ar & Har & Hm)].
    pose proof (onNodes_registry sk srcId src id total p) as Hreg. simpl in Hreg.
    fold sk' in Hreg. rewrite Har in Hreg.
    change (requestMatchesResponse (fst ar) (INodesMessage id total p))
      with (requestMatchesResponse (fst ar) (INodesMessage id total [])) in Hreg.
    rewrite Hm, Hr in Hreg. simpl in Hreg.
    assert (Hstop : Z.gtb total 1 && (Z.ltb (count r) 5 && Z.ltb (count r) total) = false).
    { destruct (Z.ltb_spec (count r) 5), (Z.ltb_spec (count r) total);
        rewrite ?andb_false_r; try reflexivity. lia. }
    rewrite Hstop in Hreg. destruct Hreg as [Hreq Hnodes].
    assert (Hgone : activeRequests sk' !! id = None)
      by (rewrite Hreq; apply lookup_delete_eq).
    split; [|split; [exact Hgone|split]].
    + rewrite accepted_eq, Har.
      change (requestMatchesResponse (fst ar) (INodesMessage id total p))
        with (requestMatchesResponse (fst ar) (INodesMessage id total [])).
      rewrite Hm. reflexivity.
    + rewrite Hnodes. apply lookup_delete_eq.
    + intros more.
      destruct (receiveNodes_unregistered srcId src id total more sk' Hgone). auto.
Qed.

(** ** findNode and the lookup ids *)

Lemma findNode_eq tgt (s : State) :
  findNode tgt s =
  let s1 := if Z.geb (nextLookupId s) (2 ^ 32)
            then setNextLookupId 1 s
            else setNextLookupId (nextLookupId s + 1) s in
  let lookup := mkLookup tgt (map nodeId (nearest (kbuckets s) tgt 16)) [] in
  (Ok (nextLookupId s),
   setTrace (trace s ++ [LookupStart (nextLookupId s)])
     (setActiveLookups (jsSet (nextLookupId s) lookup (activeLookups s)) s1)).
Proof.
  unfold findNode, bind, get, modify, effect, ret.
  destruct (Z.geb (nextLookupId s) (2 ^ 32)); reflexivity.
Qed.

Lemma elem_of_jsKeys_jsSet {V} x k (v : V) m :
  x ∈ jsKeys (jsSet k v m) -> x = k \/ x ∈ jsKeys m.
Proof.
  induction m as [|[k' v'] m IH]; simpl.
  - intros Hx. apply list_elem_of_singleton in Hx. auto.
  - destruct (Z.eqb_spec k k') as [->|Hne]; simpl; intros Hx;
      apply elem_of_cons in Hx; destruct Hx as [->|Hx]; auto.
    + right. apply elem_of_cons. auto.
    + right. apply elem_of_cons. auto.
    + destruct (IH Hx); auto. right. apply elem_of_cons. auto.
Qed.

Lemma NoDup_jsSet {V} k (v : V) m : NoDup (jsKeys m) -> NoDup (jsKeys (jsSet k v m)).
Proof.
  induction m as [|[k' v'] m IH]; simpl; intros Hm.
  - apply NoDup_singleton.
  - inversion Hm as [|? ? Hk' Hm']; subst.
    destruct (Z.eqb_spec k k') as [->|Hne]; simpl; apply NoDup_cons_2.
    + exact Hk'.
    + exact Hm'.
    + intros Hin.
      destruct (elem_of_jsKeys_jsSet _ _ _ _ Hin); [congruence|contradiction].
    + apply IH, Hm'.
Qed.

Lemma NoDup_jsDelete {V} k (m : list (Z * V)) : NoDup (jsKeys m) -> NoDup (jsKeys (jsDelete k m)).
Proof.
  intros Hm. apply (sublist_NoDup _ (jsKeys m)); [exact Hm|].
  clear Hm. induction m as [|[k' v'] m IH]; simpl; [constructor|].
  destruct (Z.eqb k k'); simpl.
  - apply sublist_cons. reflexivity.
  - apply sublist_skip, IH.
Qed.

Lemma blind_lookupsOk : blind lookupsOk.
Proof. repeat split; intros; apply H0. Qed.

Ltac keep_lookupsOk :=
  let s := fresh "s" in let Hr := fresh "Hr" in let Hn := fresh "Hn" in
  intros s [Hr Hn]; split; simpl;
  [ first [exact Hr | lia]
  | first [exact Hn | apply NoDup_jsSet, Hn | apply NoDup_jsDelete, Hn | apply NoDup_nil_2] ].

Lemma sendRequest_lookupsOk n req l : preserves lookupsOk (sendRequest n req l).
Proof.
  pose proof blind_lookupsOk as HP.
  unfold sendRequest. repeat step_preserves; keep_lookupsOk.
Qed.

Lemma sendPing_lookupsOk n : preserves lookupsOk (sendPing n).
Proof.
  pose proof blind_lookupsOk as HP. pose proof sendRequest_lookupsOk as Hs.
  unfold sendPing. repeat step_preserves; keep_lookupsOk.
Qed.

Lemma discovered_lookupsOk srcId es l : preserves lookupsOk (discovered srcId es l).
Proof.
  pose proof blind_lookupsOk as HP.
  unfold discovered. repeat step_preserves; keep_lookupsOk.
Qed.

Lemma connectionUpdated_lookupsOk n e st : preserves lookupsOk (connectionUpdated n e st).
Proof.
  pose proof blind_lookupsOk as HP.
  unfold connectionUpdated. repeat step_preserves; keep_lookupsOk.
Qed.

Lemma retrieveRequest_lookupsOk srcId m : preserves lookupsOk (retrieveRequest srcId m).
Proof.
  pose proof blind_lookupsOk as HP.
  unfold retrieveRequest. repeat step_preserves; keep_lookupsOk.
Qed.

Lemma sendNodesFrom_lookupsOk fuel nodes src srcId id total :
  forall i, preserves lookupsOk (sendNodesFrom fuel i nodes src srcId id total).
Proof.
  pose proof blind_lookupsOk as HP.
  induction fuel as [|fuel IH]; intros i; simpl; repeat step_preserves.
Qed.

Lemma findNode_lookupsOk tgt : preserves lookupsOk (findNode tgt).
Proof.
  intros s [Hr Hn]. unfold exec. rewrite findNode_eq. simpl.
  change (2 ^ 32) with 4294967296 in *.
  destruct (Z.geb_spec (nextLookupId s) 4294967296); split; simpl;
    try lia; apply NoDup_jsSet, Hn.
Qed.

(** Every reactor input keeps the ids in range and the live lookups'
    ids distinct. *)
Lemma handle_lookupsOk e : preserves lookupsOk (handle e).
Proof.
  pose proof blind_lookupsOk as HP.
  pose proof sendRequest_lookupsOk as H1. pose proof sendPing_lookupsOk as H2.
  pose proof discovered_lookupsOk as H3. pose proof connectionUpdated_lookupsOk as H4.
  pose proof retrieveRequest_lookupsOk as H5. pose proof sendNodesFrom_lookupsOk as H6.
  pose proof findNode_lookupsOk as H7.
  destruct e; simpl;
    unfold whenStarted, start, stop, addEnr, sendLookup, onLookupFinished, onPendingEviction,
      onAppliedEviction, onEstablished, onMessage, onWhoAreYouRequest,
      onRequestFailed, onInterval;
    repeat step_preserves;
    unfold onPing, onPong, onFindNode, onNodes, requestEnr;
    repeat step_preserves; try keep_lookupsOk.
Qed.

Lemma run_lookupsOk events : forall s : State, lookupsOk s -> lookupsOk (run events s).
Proof.
  induction events as [|e es IH]; intros s Hs; simpl; [exact Hs|].
  apply IH, handle_lookupsOk, Hs.
Qed.

Lemma newDiscv5_lookupsOk e : lookupsOk (newDiscv5 e : State).
Proof. split; simpl; [change (2 ^ 32) with 4294967296; lia|apply NoDup_nil_2]. Qed.

Lemma afterLookups_succ e tgt n :
  afterLookups e tgt (N.succ n) = exec (findNode tgt) (afterLookups e tgt n) :> State.
Proof. unfold afterLookups. apply N.iter_succ. Qed.

Lemma nextLookupId_findNode tgt (s : State) :
  nextLookupId (exec (findNode tgt) s) =
  if Z.geb (nextLookupId s) (2 ^ 32) then 1 else nextLookupId s + 1.
Proof.
  unfold exec. rewrite findNode_eq. simpl.
  destruct (Z.geb (nextLookupId s) (2 ^ 32)); reflexivity.
Qed.

Lemma afterLookups_next e tgt n :
  nextLookupId (afterLookups e tgt n : State) = Z.of_N n mod 2 ^ 32 + 1.
Proof.
  induction n as [|n IH] using N.peano_ind.
  - reflexivity.
  - rewrite afterLookups_succ, nextLookupId_findNode, IH, N2Z.inj_succ.
    change (2 ^ 32) with 4294967296.
    pose proof (Z.div_mod (Z.of_N n) 4294967296 ltac:(lia)) as Hd.
    pose proof (Z.mod_pos_bound (Z.of_N n) 4294967296 ltac:(lia)) as Hb.
    destruct (Z.geb_spec (Z.of_N n mod 4294967296 + 1) 4294967296) as [Hge|Hlt].
    + assert (Hm : Z.succ (Z.of_N n) mod 4294967296 = 0).
      { symmetry. apply (Z.mod_unique_pos _ _ (Z.of_N n / 4294967296 + 1)); lia. }
      rewrite Hm. reflexivity.
    + assert (Hm : Z.succ (Z.of_N n) mod 4294967296 = Z.of_N n mod 4294967296 + 1).
      { symmetry. apply (Z.mod_unique_pos _ _ (Z.of_N n / 4294967296)); lia. }
      rewrite Hm. reflexivity.
Qed.

(** The id given to call number [n + 1] on a new instance. *)
Lemma assignedLookupId_eq e tgt n :
  assignedLookupId (KademliaRoutingTable := KademliaRoutingTable) e tgt n
  = Z.of_N n mod 2 ^ 32 + 1.
Proof.
  unfold assignedLookupId. rewrite findNode_eq. simpl. apply afterLookups_next.
Qed.

(** C7, as the code has it. A new instance starts at lookup id 1. The id
    given to the n-th call of [findNode] in a row is
    [(n - 1) mod 2^32 + 1]: the ids go up by one, are never 0, reach 2^32
    itself, and the id after 2^32 is 1, so every id is between 1 and 2^32
    inclusive. After any inputs to the reactor, [findNode] returns the id
    it found in [nextLookupId], that id is in this range, the next one is
    its successor or 1 after 2^32, and the live lookups have distinct ids. *)
Theorem C7_lookup_ids_wrap_after_2pow32 (localEnr : ENR) :
  nextLookupId (newDiscv5 localEnr : State) = 1 /\
  (forall tgt n,
     let i := assignedLookupId (KademliaRoutingTable := KademliaRoutingTable) localEnr tgt n in
     i = Z.of_N n mod 2 ^ 32 + 1 /\ 1 <= i <= 2 ^ 32 /\ i <> 0 /\
     assignedLookupId (KademliaRoutingTable := KademliaRoutingTable) localEnr tgt (N.succ n)
     = (if Z.eqb i (2 ^ 32) then 1 else i + 1)) /\
  (forall events tgt,
     let s : State := run events (newDiscv5 localEnr) in
     let s' := exec (findNode tgt) s in
     fst (findNode tgt s) = Ok (nextLookupId s) /\
     1 <= nextLookupId s <= 2 ^ 32 /\
     nextLookupId s' = (if Z.eqb (nextLookupId s) (2 ^ 32) then 1 else nextLookupId s + 1) /\
     NoDup (jsKeys (activeLookups s)) /\
     NoDup (jsKeys (activeLookups s'))).
Proof.
  split; [reflexivity|]. split.
  - intros tgt n i. subst i. rewrite !assignedLookupId_eq, N2Z.inj_succ.
    change (2 ^ 32) with 4294967296.
    pose proof (Z.div_mod (Z.of_N n) 4294967296 ltac:(lia)) as Hd.
    pose proof (Z.mod_pos_bound (Z.of_N n) 4294967296 ltac:(lia)) as Hb.
    repeat split; try lia.
    destruct (Z.eqb_spec (Z.of_N n mod 4294967296 + 1) 4294967296) as [He|Hne].
    + assert (Hm : Z.succ (Z.of_N n) mod 4294967296 = 0).
      { symmetry. apply (Z.mod_unique_pos _ _ (Z.of_N n / 4294967296 + 1)); lia. }
      rewrite Hm. reflexivity.
    + assert (Hm : Z.succ (Z.of_N n) mod 4294967296 = Z.of_N n mod 4294967296 + 1).
      { symmetry. apply (Z.mod_unique_pos _ _ (Z.of_N n / 4294967296)); lia. }
      rewrite Hm. reflexivity.
  - intros events tgt s s'.
    assert (Hs : lookupsOk s) by apply run_lookupsOk, newDiscv5_lookupsOk.
    assert (Hs' : lookupsOk s') by apply findNode_lookupsOk, Hs.
    destruct Hs as [Hr Hn]. destruct Hs' as [_ Hn'].
    split; [rewrite findNode_eq; reflexivity|]. split; [exact Hr|].
    split; [|split; assumption].
    subst s'. rewrite nextLookupId_findNode. change (2 ^ 32) with 4294967296 in *.
    destruct (Z.geb_spec (nextLookupId s) 4294967296), (Z.eqb_spec (nextLookupId s) 4294967296);
      try reflexivity; lia.
Qed.

(** With distance 0, [onFindNode] goes on after the reply that carries the
    local ENR and makes at least one more call. *)
Lemma onFindNode_zero (s : State) srcId src id :
  exists new,
    onFindNode srcId src id 0 s = (Ok tt, setTrace (trace s ++ new) s) /\
    exists more, more <> [] /\
      sessionCalls new = SendResponse src srcId (INodesMessage id 1 [enr s]) :: more.
Proof.
  unfold onFindNode. simpl Z.eqb. cbv iota.
  unfold bind at 1. unfold bind at 1, get at 1. rewrite tryCatch_sessionService.
  set (e := Session _ _). set (s1 := setTrace (trace s ++ [e]) s).
  unfold bind, get.
  destruct (Nat.eqb_spec (length (valuesOfDistance (kbuckets s1) 0)) 0) as [Hz|Hnz].
  - rewrite tryCatch_sessionService. eexists. split.
    + subst s1. simpl. rewrite <- app_assoc. reflexivity.
    + eexists. split; [|reflexivity]. discriminate.
  - set (nodes := valuesOfDistance (kbuckets s1) 0) in *.
    destruct (sendNodesFrom_spec nodes src srcId id
                (ceilDiv (Z.of_nat (length nodes)) nodesPerPacket) (length nodes) 0 s1)
      as (new & chunks & Hrun & Hnew & Hcat & Hlen); [lia|lia|].
    rewrite Hrun. exists (e :: new). split.
    + subst s1. simpl. rewrite <- app_assoc. reflexivity.
    + exists (sessionCalls new). split; [|reflexivity].
      rewrite (sendsChunk_calls _ _ _ _ _ _ Hnew).
      destruct chunks; [|discriminate]. exfalso. apply Hnz.
      simpl in Hcat. rewrite drop_0 in Hcat. rewrite <- Hcat. reflexivity.
Qed.

(** ** No handler lets an exception out *)

Ltac step_nothrow :=
  match goal with
  | |- nothrow (bind _ _) => apply nothrow_bind; [|intros ?]
  | |- nothrow (ret _) => apply nothrow_ret
  | |- nothrow get => apply nothrow_get
  | |- nothrow (tryCatch _) => apply nothrow_tryCatch
  | |- nothrow (forEach _ _) => apply nothrow_forEach; intros ?
  | |- nothrow (effect _) => apply nothrow_effect
  | |- nothrow (emit _) => apply nothrow_effect
  | |- nothrow (modify _) => apply nothrow_modify
  | |- nothrow createRequestId => apply nothrow_createRequestId
  | |- nothrow (createPingMessage _) => unfold createPingMessage
  | |- nothrow (createFindNodeMessage _) => unfold createFindNodeMessage
  | |- nothrow (setInterval _) => intros ?; eexists; reflexivity
  | |- nothrow (clearInterval ?h) => destruct h; simpl
  | |- nothrow (sendRequest _ _ _) => apply nothrow_sendRequest
  | |- nothrow (match ?x with _ => _ end) => destruct x
  | |- nothrow (let (_, _) := ?x in _) => destruct x
  | H : _ |- nothrow _ => solve [apply H]
  end.

Lemma nothrow_discovered srcId es l : nothrow (discovered srcId es l).
Proof. unfold discovered. repeat step_nothrow. Qed.

Lemma nothrow_connectionUpdated n e st : nothrow (connectionUpdated n e st).
Proof. unfold connectionUpdated. repeat step_nothrow. Qed.

Lemma nothrow_retrieveRequest srcId m : nothrow (retrieveRequest srcId m).
Proof. unfold retrieveRequest. repeat step_nothrow. Qed.

Lemma nothrow_sendNodesFrom fuel nodes src srcId id total :
  forall i, nothrow (sendNodesFrom fuel i nodes src srcId id total).
Proof. induction fuel as [|fuel IH]; intros i; simpl; repeat step_nothrow. Qed.

(** Whatever the session service does, every input is handled to the end. *)
Lemma nothrow_handle e : nothrow (handle e).
Proof.
  pose proof nothrow_discovered as H1. pose proof nothrow_connectionUpdated as H2.
  pose proof nothrow_retrieveRequest as H3. pose proof nothrow_sendNodesFrom as H4.
  destruct e; simpl;
    unfold whenStarted, start, stop, addEnr, findNode, sendLookup, onLookupFinished,
      onPendingEviction, onAppliedEviction, onEstablished, onMessage,
      onWhoAreYouRequest, onRequestFailed, onInterval, sendPing;
    repeat step_nothrow;
    unfold onPing, onPong, onFindNode, onNodes, requestEnr;
    repeat step_nothrow.
Qed.


(** * Further properties of the service *)

(** ** Reasoning step by step, with an obligation for every write *)

Lemma preserves_sessionService_app (P : State -> Prop) c :
  (forall s b, P s -> P (setTrace (trace s ++ [Session c b]) s)) ->
  preserves P (sessionService c).
Proof.
  intros HP s Hs. unfold exec, sessionService.
  destruct (sessionThrows (trace s) c); simpl; apply HP, Hs.
Qed.

Lemma preserves_createRequestId_S (P : State -> Prop) :
  (forall s, P s -> P (setIdsDrawn (S (idsDrawn s)) s)) -> preserves P createRequestId.
Proof. intros HP s Hs. apply HP, Hs. Qed.

Lemma preserves_setInterval_S (P : State -> Prop) n :
  (forall s, P s ->
     P (setIntervals (<[timersCreated s := n]> (intervals s)) (S (timersCreated s)) s)) ->
  preserves P (setInterval n).
Proof. intros HP s Hs. apply HP, Hs. Qed.

Ltac step_keeps :=
  match goal with
  | |- preserves _ (bind _ _) => apply preserves_bind; [|intros ?]
  | |- preserves _ (ret _) => apply preserves_ret
  | |- preserves _ get => apply preserves_get
  | |- preserves _ (tryCatch _) => apply preserves_tryCatch
  | |- preserves _ (forEach _ _) => apply preserves_forEach; intros ?
  | |- preserves _ (effect _) => unfold effect; apply preserves_modify
  | |- preserves _ (emit _) => unfold emit, effect; apply preserves_modify
  | |- preserves _ (sessionService _) => apply preserves_sessionService_app
  | |- preserves _ createRequestId => apply preserves_createRequestId_S
  | |- preserves _ (createPingMessage _) => unfold createPingMessage
  | |- preserves _ (createFindNodeMessage _) => unfold createFindNodeMessage
  | |- preserves _ (setInterval _) => apply preserves_setInterval_S
  | |- preserves _ (clearInterval ?h) => destruct h; simpl
  | |- preserves _ (modify _) => apply preserves_modify
  | |- preserves _ (match ?x with _ => _ end) => destruct x
  | |- preserves _ (let (_, _) := ?x in _) => destruct x
  | H : _ |- preserves _ _ => solve [apply H]
  end.

(** The methods [handle] dispatches to, unfolded down to the ones that are
    given their own lemma. *)
Ltac unfold_handlers :=
  unfold whenStarted, start, stop, addEnr, findNode, sendLookup, onLookupFinished,
    onPendingEviction, onAppliedEviction, onEstablished, onMessage,
    onWhoAreYouRequest, onRequestFailed, onInterval.

(** X1. Every call of the session service's [sendRequest], [sendResponse]
    and [sendRequestUnknownEnr] is made inside a try/catch: whatever these
    three throw, and in whatever state, every input of the reactor is
    handled to the end and the handler returns normally. ([sendWhoAreYou],
    [updateEnr], the table, the lookups and the listeners of the service's
    own events are taken not to throw.) *)
Theorem X1_no_handler_throws (e : Event) (s : State) :
  exists s', handle e s = (Ok tt, s').
Proof.
  destruct (nothrow_handle e s) as [[] Ha].
  destruct (handle e s) as [r s'] eqn:E. simpl in Ha. subst r. eauto.
Qed.

(** ** Only [onFindNode] sends NODES, and its packets fit *)











(** ** Equations for running a method *)

Lemma bind_get {A} (k : State -> M A) (s : State) : bind get k s = k s s.
Proof. reflexivity. Qed.

Lemma bind_modify {A} f (k : unit -> M A) (s : State) : bind (modify f) k s = k tt (f s).
Proof. reflexivity. Qed.

Lemma bind_ok {A B} (m : M A) (k : A -> M B) (s s' : State) a :
  m s = (Ok a, s') -> bind m k s = k a s'.
Proof. intros Hm. unfold bind. rewrite Hm. reflexivity. Qed.

Lemma setTrace_nil (s : State) : setTrace (trace s ++ []) s = s.
Proof. rewrite app_nil_r. destruct s; reflexivity. Qed.

Lemma forEach_effect {A} (f : A -> Effect) (l : list A) : forall s : State,
  forEach l (fun a => effect (f a)) s = (Ok tt, setTrace (trace s ++ map f l) s).
Proof.
  induction l as [|a l IH]; intros s; simpl.
  - unfold ret. rewrite setTrace_nil. reflexivity.
  - unfold effect at 1. rewrite bind_modify, IH. simpl.
    rewrite <- app_assoc. reflexivity.
Qed.

Lemma forEach_clearInterval (hs : list Timer) : forall s : State,
  forEach hs (fun h => clearInterval (Some h)) s =
  (Ok tt, setIntervals (clearAll hs (intervals s)) (timersCreated s) s).
Proof.
  induction hs as [|h hs IH]; intros s; simpl.
  - unfold ret. destruct s; reflexivity.
  - rewrite bind_modify, IH. reflexivity.
Qed.

Lemma clearAll_other hs : forall (i : gmap Timer NodeId) h,
  ~ In h hs -> clearAll hs i !! h = i !! h.
Proof.
  induction hs as [|h0 hs IH]; intros i h Hout; simpl; [reflexivity|].
  rewrite IH by (intros Hin; apply Hout; right; exact Hin).
  apply lookup_delete_ne. intros ->. apply Hout. left. reflexivity.
Qed.

Lemma clearAll_cleared hs : forall (i : gmap Timer NodeId) h,
  In h hs -> clearAll hs i !! h = None.
Proof.
  induction hs as [|h0 hs IH]; intros i h Hin; simpl; [destruct Hin|].
  destruct (in_dec Nat.eq_dec h hs) as [Hhs|Hhs]; [apply IH, Hhs|].
  rewrite clearAll_other by exact Hhs.
  destruct Hin as [->|Hin]; [apply lookup_delete_eq|contradiction].
Qed.

Lemma clearAll_Some hs (i : gmap Timer NodeId) h n :
  clearAll hs i !! h = Some n -> i !! h = Some n.
Proof.
  destruct (in_dec Nat.eq_dec h hs) as [Hin|Hout].
  - rewrite clearAll_cleared by exact Hin. discriminate.
  - rewrite clearAll_other by exact Hout. auto.
Qed.

(** ** onPing *)

(** X3. A PING is always answered: [onPing] hands the session service
    exactly one PONG with the PING's id, the local sequence number and the
    sender's host and port, after at most one request for the sender's ENR,
    which is made exactly when the sender is unknown to the table or known
    with an older sequence number; whether or not either call throws,
    nothing but the record of these calls and the id drawn changes. *)
Theorem X3_ping_always_answered (s : State) srcId src id enrSeq :
  let stale :=
    match getWithPending (kbuckets s) srcId with
    | Some entry => Z.ltb (seq (value entry)) enrSeq
    | None => true
    end in
  let pong := SendResponse src srcId (IPongMessage id (seq (enr s)) (host src) (port src)) in
  let ask := SendRequestUnknownEnr src srcId (IFindNodeMessage (requestIds (idsDrawn s)) 0) in
  exists b1 b2,
    onPing srcId src id enrSeq s =
    (Ok tt,
     if stale
     then setTrace (trace s ++ [Session ask b1; Session pong b2]) (setIdsDrawn (S (idsDrawn s)) s)
     else setTrace (trace s ++ [Session pong b2]) s).
Proof.
  intros stale pong ask.
  assert (Hask : requestEnr srcId src s =
                 (Ok tt, setTrace (trace s ++ [Session ask (sessionThrows (trace s) ask)])
                           (setIdsDrawn (S (idsDrawn s)) s))).
  { unfold requestEnr, tryCatch, createFindNodeMessage, createRequestId, bind, ret,
      sessionService. simpl. fold ask. destruct (sessionThrows (trace s) ask); reflexivity. }
  assert (Hpong : forall s1 : State, enr s1 = enr s ->
            bind get (fun s2 => tryCatch (sessionService
              (SendResponse src srcId (IPongMessage id (seq (enr s2)) (host src) (port src))))) s1
            = (Ok tt, setTrace (trace s1 ++ [Session pong (sessionThrows (trace s1) pong)]) s1)).
  { intros s1 He. rewrite bind_get, He. apply tryCatch_sessionService. }
  unfold onPing. rewrite bind_get. subst stale.
  destruct (getWithPending (kbuckets s) srcId) as [entry|].
  - destruct (Z.ltb (seq (value entry)) enrSeq).
    + rewrite (bind_ok _ _ _ _ _ Hask), Hpong by reflexivity.
      do 2 eexists. simpl. rewrite <- app_assoc. reflexivity.
    + unfold ret at 1. unfold bind at 1. rewrite Hpong by reflexivity.
      exists false. eexists. reflexivity.
  - rewrite (bind_ok _ _ _ _ _ Hask), Hpong by reflexivity.
    do 2 eexists. simpl. rewrite <- app_assoc. reflexivity.
Qed.

(** ** stop *)

Lemma stop_eq (s : State) :
  started s = true ->
  stop s =
  (Ok tt,
   mkDiscv5 false (enr s) (clearTable (kbuckets s)) [] ∅ ∅ ∅ 1
     (clearAll (map snd (map_to_list (connectedPeers s))) (intervals s))
     (timersCreated s) (idsDrawn s)
     (trace s ++ map LookupStop (jsKeys (activeLookups s)))).
Proof.
  intros Hs. unfold stop. rewrite bind_get, Hs.
  change (negb true) with false. cbv iota.
  rewrite bind_modify.
  rewrite (bind_ok _ _ _ _ _ (forEach_effect LookupStop _ _)).
  rewrite !bind_modify.
  rewrite (bind_ok _ _ _ _ _ (forEach_clearInterval _ _)).
  rewrite bind_modify. reflexivity.
Qed.

(** X4. [stop] on a started instance returns with the table cleared, no
    live lookup, the lookup counter back at 1, both request maps and the
    connected peers empty, and [started] false. Each lookup that was live
    has been stopped, in the order of the map; the interval of each
    connected peer has been cleared and no other interval touched. A
    second [stop] changes nothing. *)
Theorem X4_stop_clears_everything (s : State) :
  started s = true ->
  let s' := exec stop s in
  fst (stop s) = Ok tt /\
  started s' = false /\
  enr s' = enr s /\
  kbuckets s' = clearTable (kbuckets s) /\
  activeLookups s' = [] /\
  nextLookupId s' = 1 /\
  activeRequests s' = ∅ /\
  activeNodesResponses s' = ∅ /\
  connectedPeers s' = ∅ /\
  trace s' = trace s ++ map LookupStop (jsKeys (activeLookups s)) /\
  (forall n h, connectedPeers s !! n = Some h -> intervals s' !! h = None) /\
  (forall h, (forall n, connectedPeers s !! n <> Some h) ->
             intervals s' !! h = intervals s !! h) /\
  stop s' = (Ok tt, s').
Proof.
  intros Hs s'. subst s'. unfold exec. rewrite (stop_eq s Hs). simpl.
  repeat split.
  - intros n h Hn. apply clearAll_cleared.
    apply in_map_iff. exists (n, h). split; [reflexivity|].
    apply list_elem_of_In, elem_of_map_to_list, Hn.
  - intros h Hh. apply clearAll_other.
    intros Hin. apply in_map_iff in Hin. destruct Hin as ([n h'] & Heq & Hin).
    simpl in Heq. subst h'. apply list_elem_of_In, elem_of_map_to_list in Hin.
    exact (Hh n Hin).
Qed.

(** ** connectionUpdated, sendPing, onEstablished *)

(** [connectionUpdated] writes the table and emits at most one [enrAdded]. *)
Lemma connectionUpdated_eq (s : State) n e st :
  exists t em,
    connectionUpdated n e st s = (Ok tt, setTrace (trace s ++ em) (setKbuckets t s)) /\
    sessionCalls em = [].
Proof.
  assert (Hsame : (Ok tt, s) = (Ok tt, setTrace (trace s ++ []) (setKbuckets (kbuckets s) s))).
  { rewrite app_nil_r. destruct s; reflexivity. }
  unfold connectionUpdated. rewrite bind_get.
  destruct (getWithPending (kbuckets s) n).
  - destruct e as [e|]; unfold modify;
      [exists (update (kbuckets s) e st), []|exists (updateStatus (kbuckets s) n st), []];
      (split; [|reflexivity]); rewrite app_nil_r; destruct s; reflexivity.
  - destruct st, e as [e|]; try (exists (kbuckets s), []; split; [exact Hsame|reflexivity]).
    destruct (add (kbuckets s) e Connected) as [t inserted].
    rewrite bind_modify. destruct inserted.
    + exists t, [Emit (EnrAdded e None)]. split; reflexivity.
    + exists t, []. split; [|reflexivity]. unfold ret. simpl.
      rewrite app_nil_r. destruct s; reflexivity.
Qed.

Lemma sendPing_eq (s : State) n :
  sendPing n s =
  sendRequest n (IPingMessage (requestIds (idsDrawn s)) (seq (enr s))) None
    (setIdsDrawn (S (idsDrawn s)) s).
Proof. reflexivity. Qed.

(** What [onEstablished] leaves behind. *)
Lemma onEstablished_spec (s : State) (e : ENR) :
  let s' := exec (onEstablished e) s in
  let h := timersCreated s in
  let ping := IPingMessage (requestIds (idsDrawn s)) (seq (enr s)) in
  fst (onEstablished e s) = Ok tt /\
  connectedPeers s' = <[nodeId e := h]> (connectedPeers s) /\
  intervals s' = <[h := nodeId e]> (intervals s) /\
  timersCreated s' = S h /\
  onInterval h s' = sendPing (nodeId e) s' /\
  match getValue (kbuckets s') (nodeId e) with
  | None =>
      sessionCalls (trace s') = sessionCalls (trace s) /\
      activeRequests s' = activeRequests s
  | Some dst =>
      exists threw : bool,
        sessionCalls (trace s') = sessionCalls (trace s) ++ [SendRequest dst ping] /\
        activeRequests s' =
          (if threw then activeRequests s
           else <[reqId ping := (ping, None)]> (activeRequests s))
  end.
Proof.
  intros s' h ping. subst s'. unfold exec, onEstablished.
  destruct (connectionUpdated_eq s (nodeId e) (Some e) Connected) as (t & em & Hc & Hem).
  rewrite (bind_ok _ _ _ _ _ Hc).
  set (s1 := setTrace (trace s ++ em) (setKbuckets t s)).
  assert (Hcalls : sessionCalls (trace s1) = sessionCalls (trace s)).
  { subst s1. simpl. rewrite sessionCalls_app, Hem. apply app_nil_r. }
  destruct (getValue t (nodeId e)) as [dst|] eqn:Hdst.
  - assert (Hp : sendPing (nodeId e) s1 =
                 sendRequest (nodeId e) ping None (setIdsDrawn (S (idsDrawn s)) s1))
      by reflexivity.
    rewrite (sendRequest_known _ _ _ _ dst) in Hp by exact Hdst.
    cbv zeta in Hp. simpl trace in Hp. simpl activeRequests in Hp.
    set (threw := sessionThrows (trace s ++ em) (SendRequest dst ping)) in Hp.
    assert (Hlook : forall s2 : State,
              intervals s2 = <[h := nodeId e]> (intervals s) -> kbuckets s2 = t ->
              onInterval h s2 = sendPing (nodeId e) s2).
    { intros s2 Hi Hk. unfold onInterval. rewrite bind_get, Hi, lookup_insert_eq.
      reflexivity. }
    destruct threw; rewrite (bind_ok _ _ _ _ _ Hp); unfold bind, setInterval, modify; simpl;
      rewrite Hdst.
    + repeat split; try reflexivity.
      * apply Hlook; reflexivity.
      * exists true. split; [|reflexivity].
        rewrite !sessionCalls_app, Hem. simpl. rewrite app_nil_r. reflexivity.
    + repeat split; try reflexivity.
      * apply Hlook; reflexivity.
      * exists false. split; [|reflexivity].
        rewrite !sessionCalls_app, Hem. simpl. rewrite app_nil_r. reflexivity.
  - assert (Hp : sendPing (nodeId e) s1 = (Ok tt, setIdsDrawn (S (idsDrawn s)) s1)).
    { rewrite sendPing_eq. apply sendRequest_unknown. exact Hdst. }
    rewrite (bind_ok _ _ _ _ _ Hp). unfold bind, setInterval, modify. simpl.
    rewrite Hdst. repeat split; try reflexivity.
    + unfold onInterval. rewrite bind_get. simpl. rewrite lookup_insert_eq. reflexivity.
    + rewrite sessionCalls_app, Hem. apply app_nil_r.
Qed.



(** ** The intervals of the connected peers *)

Lemma bind_nothrow_post {A B} (P Q : State -> Prop) (m : M A) (k : A -> M B) (s : State) :
  nothrow m -> preserves P m -> P s ->
  (forall a s1, P s1 -> Q (exec (k a) s1)) ->
  Q (exec (bind m k) s).
Proof.
  intros Hnt Hm Hs Hk. destruct (Hnt s) as [a Ha]. specialize (Hm s Hs).
  rewrite exec_bind. unfold exec in Hm. destruct (m s) as [r s1]. simpl in Ha, Hm.
  subst r. apply Hk, Hm.
Qed.

Ltac keep_same := let s := fresh "s" in intros s; intros; assumption.

Lemma discovered_sameTimers s0 srcId es l : preserves (sameTimers s0) (discovered srcId es l).
Proof. unfold discovered. repeat step_keeps; keep_same. Qed.

Lemma connectionUpdated_sameTimers s0 n e st :
  preserves (sameTimers s0) (connectionUpdated n e st).
Proof. unfold connectionUpdated. repeat step_keeps; keep_same. Qed.

Lemma sendRequest_sameTimers s0 n req l : preserves (sameTimers s0) (sendRequest n req l).
Proof. unfold sendRequest. repeat step_keeps; keep_same. Qed.

Lemma retrieveRequest_sameTimers s0 srcId m :
  preserves (sameTimers s0) (retrieveRequest srcId m).
Proof. unfold retrieveRequest. repeat step_keeps; keep_same. Qed.

Lemma sendNodesFrom_sameTimers s0 fuel nodes src srcId id total :
  forall i, preserves (sameTimers s0) (sendNodesFrom fuel i nodes src srcId id total).
Proof. induction fuel as [|fuel IH]; intros i; simpl; repeat step_keeps; keep_same. Qed.

(** What [onRequestFailed] does to the connected peers and their intervals. *)
Lemma onRequestFailed_timers (s : State) srcId rpcId :
  let s' := exec (onRequestFailed srcId rpcId) s in
  connectedPeers s' = delete srcId (connectedPeers s) /\
  intervals s' = match connectedPeers s !! srcId with
                 | Some h => delete h (intervals s)
                 | None => intervals s
                 end /\
  timersCreated s' = timersCreated s.
Proof.
  intros s'. subst s'. unfold onRequestFailed. rewrite exec_get_bind.
  pose proof (discovered_sameTimers s) as Hd.
  apply (bind_nothrow_post (sameTimers s)).
  - pose proof nothrow_discovered as Hn. repeat step_nothrow.
  - repeat step_keeps; keep_same.
  - repeat split.
  - intros _ s1 Hs1. apply (bind_nothrow_post (sameTimers s)).
    + apply nothrow_connectionUpdated.
    + apply connectionUpdated_sameTimers.
    + exact Hs1.
    + intros _ s2 (Hc & Hi & Ht). rewrite exec_get_bind, Hc.
      destruct (connectedPeers s !! srcId) as [h|]; unfold exec, bind, modify; simpl;
        rewrite Hc, ?Hi, Ht; auto.
Qed.

Lemma onEstablished_timersOk e : preserves timersOk (onEstablished e).
Proof.
  intros s [Ha Hb].
  destruct (onEstablished_spec s e) as (_ & Hc & Hi & Ht & _).
  split.
  - intros n h. rewrite Hc, Hi. destruct (decide (nodeId e = n)) as [<-|Hne].
    + rewrite lookup_insert_eq. intros [= <-]. apply lookup_insert_eq.
    + rewrite lookup_insert_ne by exact Hne. intros Hn.
      rewrite lookup_insert_ne; [apply Ha, Hn|].
      intros <-. specialize (Hb _ _ (Ha _ _ Hn)). lia.
  - intros h n. rewrite Hi, Ht. destruct (decide (timersCreated s = h)) as [<-|Hne].
    + lia.
    + rewrite lookup_insert_ne by exact Hne. intros Hh. specialize (Hb _ _ Hh). lia.
Qed.

Lemma onRequestFailed_timersOk srcId rpcId : preserves timersOk (onRequestFailed srcId rpcId).
Proof.
  intros s [Ha Hb].
  destruct (onRequestFailed_timers s srcId rpcId) as (Hc & Hi & Ht).
  split.
  - intros n h. rewrite Hc, Hi. intros Hn. apply lookup_delete_Some in Hn.
    destruct Hn as [Hne Hn]. destruct (connectedPeers s !! srcId) as [h0|] eqn:H0;
      [|apply Ha, Hn].
    rewrite lookup_delete_ne; [apply Ha, Hn|].
    intros ->. pose proof (Ha _ _ Hn) as H1. pose proof (Ha _ _ H0) as H2. congruence.
  - intros h n. rewrite Hi, Ht. intros Hh. apply (Hb h n).
    destruct (connectedPeers s !! srcId); [|exact Hh].
    apply lookup_delete_Some in Hh. apply Hh.
Qed.

Lemma stop_timersOk : preserves timersOk stop.
Proof.
  intros s [Ha Hb]. destruct (started s) eqn:Hs.
  - unfold exec. rewrite (stop_eq s Hs). split; simpl.
    + intros n h Hn. rewrite lookup_empty in Hn. discriminate Hn.
    + intros h n Hh. apply clearAll_Some in Hh. apply (Hb h n Hh).
  - unfold exec, stop. rewrite bind_get, Hs. split; assumption.
Qed.

Ltac keep_timersOk :=
  intros; match goal with Hs : timersOk _ |- _ => exact Hs end.

Lemma sendRequest_timersOk n req l : preserves timersOk (sendRequest n req l).
Proof. unfold sendRequest. repeat step_keeps; keep_timersOk. Qed.

Lemma discovered_timersOk srcId es l : preserves timersOk (discovered srcId es l).
Proof. unfold discovered. repeat step_keeps; keep_timersOk. Qed.

Lemma connectionUpdated_timersOk n e st : preserves timersOk (connectionUpdated n e st).
Proof. unfold connectionUpdated. repeat step_keeps; keep_timersOk. Qed.

Lemma sendNodesFrom_timersOk fuel nodes src srcId id total :
  forall i, preserves timersOk (sendNodesFrom fuel i nodes src srcId id total).
Proof. induction fuel as [|fuel IH]; intros i; simpl; repeat step_keeps; keep_timersOk. Qed.

Lemma handle_timersOk e : preserves timersOk (handle e).
Proof.
  pose proof sendRequest_timersOk as H1. pose proof discovered_timersOk as H2.
  pose proof connectionUpdated_timersOk as H3. pose proof sendNodesFrom_timersOk as H4.
  pose proof onEstablished_timersOk as H5. pose proof onRequestFailed_timersOk as H6.
  pose proof stop_timersOk as H7.
  destruct e; simpl;
    unfold whenStarted, start, addEnr, findNode, sendLookup, onLookupFinished,
      onPendingEviction, onAppliedEviction, onMessage, onWhoAreYouRequest, onInterval;
    repeat step_keeps;
    unfold sendPing, onPing, onPong, onFindNode, onNodes, requestEnr, retrieveRequest;
    repeat step_keeps; keep_timersOk.
Qed.

Lemma run_timersOk events : forall s : State, timersOk s -> timersOk (run events s).
Proof.
  induction events as [|e es IH]; intros s Hs; simpl; [exact Hs|].
  apply IH, handle_timersOk, Hs.
Qed.

Lemma newDiscv5_timersOk e : timersOk (newDiscv5 e : State).
Proof.
  split; intros ? ? Hl; simpl in Hl; rewrite lookup_empty in Hl; discriminate Hl.
Qed.

(** X6. Whatever inputs a new instance has handled, every peer in
    [connectedPeers] has its interval armed and that interval pings this
    very peer; no two connected peers share an interval. *)
Theorem X6_connected_peers_have_their_interval (localEnr : ENR) (events : list Event) n h :
  let s : State := run events (newDiscv5 localEnr) in
  connectedPeers s !! n = Some h ->
  intervals s !! h = Some n /\
  onInterval h s = sendPing n s /\
  (forall n', connectedPeers s !! n' = Some h -> n' = n).
Proof.
  intros s Hn.
  destruct (run_timersOk events _ (newDiscv5_timersOk localEnr)) as [Ha _]. fold s in Ha.
  split; [apply Ha, Hn|]. split.
  - unfold onInterval. rewrite bind_get, (Ha _ _ Hn). reflexivity.
  - intros n' Hn'. pose proof (Ha _ _ Hn). pose proof (Ha _ _ Hn'). congruence.
Qed.

(** X7. When a request to a connected peer fails, the peer's interval is
    cleared and the peer leaves [connectedPeers]: if the interval's handler
    still runs, it does nothing. *)
Theorem X7_failed_peer_is_not_pinged_again (s : State) srcId rpcId h :
  connectedPeers s !! srcId = Some h ->
  let s' := exec (onRequestFailed srcId rpcId) s in
  connectedPeers s' !! srcId = None /\
  intervals s' !! h = None /\
  onInterval h s' = (Ok tt, s').
Proof.
  intros Hh s'. destruct (onRequestFailed_timers s srcId rpcId) as (Hc & Hi & _).
  fold s' in Hc, Hi. rewrite Hh in Hi.
  assert (Hgone : intervals s' !! h = None) by (rewrite Hi; apply lookup_delete_eq).
  split; [rewrite Hc; apply lookup_delete_eq|]. split; [exact Hgone|].
  unfold onInterval. rewrite bind_get, Hgone. reflexivity.
Qed.

Lemma onEstablished_started e b :
  preserves (fun s : State => started s = b) (onEstablished e).
Proof.
  unfold onEstablished, connectionUpdated, sendPing, sendRequest.
  repeat step_keeps; intros; assumption.
Qed.

(** X8. A second [established] for a peer that is already connected arms a
    new interval and records it in place of the old one without clearing
    the old one: the old interval stays armed, and neither a failed request
    of the peer nor [stop] clears it. *)
Theorem X8_second_established_leaves_interval_armed (s : State) (e : ENR) h :
  timersOk s ->
  started s = true ->
  connectedPeers s !! nodeId e = Some h ->
  let s1 := exec (onEstablished e) s in
  connectedPeers s1 !! nodeId e = Some (timersCreated s) /\
  timersCreated s <> h /\
  intervals s1 !! h = Some (nodeId e) /\
  (forall rpcId, intervals (exec (onRequestFailed (nodeId e) rpcId) s1) !! h = Some (nodeId e)) /\
  intervals (exec stop s1) !! h = Some (nodeId e).
Proof.
  intros [Ha Hb] Hs Hh s1.
  destruct (onEstablished_spec s e) as (_ & Hc & Hi & _). fold s1 in Hc, Hi.
  assert (Hs1 : started s1 = true) by (apply (onEstablished_started e true s Hs)).
  clearbody s1.
  pose proof (Ha _ _ Hh) as Harmed. pose proof (Hb _ _ Harmed) as Hlt.
  assert (Hne : timersCreated s <> h) by lia.
  assert (Hold : intervals s1 !! h = Some (nodeId e)).
  { rewrite Hi, lookup_insert_ne by exact Hne. exact Harmed. }
  assert (Hnew : connectedPeers s1 !! nodeId e = Some (timersCreated s)).
  { rewrite Hc. apply lookup_insert_eq. }
  split; [exact Hnew|]. split; [exact Hne|]. split; [exact Hold|]. split.
  - intros rpcId. destruct (onRequestFailed_timers s1 (nodeId e) rpcId) as (_ & Hi' & _).
    rewrite Hi'. clear Hi'.
    destruct (connectedPeers s1 !! nodeId e) as [h0|]; [|exact Hold].
    injection Hnew as ->. rewrite lookup_delete_ne by exact Hne. exact Hold.
  - unfold exec. rewrite (stop_eq s1 Hs1). simpl.
    rewrite clearAll_other; [exact Hold|].
    intros Hin. apply in_map_iff in Hin. destruct Hin as ([n h'] & Heq & Hin).
    simpl in Heq. subst h'. apply list_elem_of_In, elem_of_map_to_list in Hin.
    rewrite Hc in Hin. destruct (decide (nodeId e = n)) as [<-|Hn].
    + rewrite lookup_insert_eq in Hin. congruence.
    + rewrite lookup_insert_ne in Hin by exact Hn.
      pose proof (Ha _ _ Hin). congruence.
Qed.

(** ** The shape of the request registry *)

Lemma registryOk_insert (s : State) req l :
  registryOk s ->
  match l with
  | Some _ => exists d, req = IFindNodeMessage (reqId req) d /\ d <> 0
  | None => (exists q, req = IPingMessage (reqId req) q) \/ req = IFindNodeMessage (reqId req) 0
  end ->
  registryOk (setActiveRequests (<[reqId req := (req, l)]> (activeRequests s)) s).
Proof.
  intros Hs Hreq id req' l'. simpl. destruct (decide (reqId req = id)) as [<-|Hne].
  - rewrite lookup_insert_eq. intros [= <- <-]. split; [reflexivity|exact Hreq].
  - rewrite lookup_insert_ne by exact Hne. apply Hs.
Qed.

Ltac keep_registryOk :=
  intros; first
    [ match goal with Hs : registryOk _ |- _ => exact Hs end
    | match goal with
      | Hs : registryOk ?s |- registryOk _ =>
          let i := fresh "i" in let r := fresh "r" in let l := fresh "l" in
          let Hr := fresh "Hr" in
          intros i r l Hr; simpl in Hr;
          first [ apply lookup_delete_Some in Hr; destruct Hr as [_ Hr]; exact (Hs i r l Hr)
                | rewrite lookup_empty in Hr; discriminate Hr ]
      end ].

Lemma sendRequest_registryOk n req l :
  match l with
  | Some _ => exists d, req = IFindNodeMessage (reqId req) d /\ d <> 0
  | None => (exists q, req = IPingMessage (reqId req) q) \/ req = IFindNodeMessage (reqId req) 0
  end ->
  preserves registryOk (sendRequest n req l).
Proof.
  intros Hreq. unfold sendRequest. repeat step_keeps; try keep_registryOk.
  intros s Hs. apply registryOk_insert; assumption.
Qed.

Lemma sendPing_registryOk n : preserves registryOk (sendPing n).
Proof.
  intros s Hs. unfold exec. rewrite sendPing_eq.
  apply (sendRequest_registryOk n _ None); [left; eexists; reflexivity|exact Hs].
Qed.

Lemma discovered_registryOk srcId es l : preserves registryOk (discovered srcId es l).
Proof. unfold discovered. repeat step_keeps; keep_registryOk. Qed.

Lemma connectionUpdated_registryOk n e st : preserves registryOk (connectionUpdated n e st).
Proof. unfold connectionUpdated. repeat step_keeps; keep_registryOk. Qed.

Lemma retrieveRequest_registryOk srcId m : preserves registryOk (retrieveRequest srcId m).
Proof. unfold retrieveRequest. repeat step_keeps; keep_registryOk. Qed.

Lemma sendNodesFrom_registryOk fuel nodes src srcId id total :
  forall i, preserves registryOk (sendNodesFrom fuel i nodes src srcId id total).
Proof. induction fuel as [|fuel IH]; intros i; simpl; repeat step_keeps; keep_registryOk. Qed.

Lemma createFindNode_then (P : State -> Prop) {A} d (k : RequestMessage -> M A) :
  (forall s n, P s -> P (setIdsDrawn n s)) ->
  (forall i, preserves P (k (IFindNodeMessage i d))) ->
  preserves P (bind (createFindNodeMessage d) k).
Proof.
  intros Hids Hk s Hs.
  change (P (exec (k (IFindNodeMessage (requestIds (idsDrawn s)) d))
               (setIdsDrawn (S (idsDrawn s)) s))).
  apply Hk, Hids, Hs.
Qed.

Lemma onNodes_registryOk srcId src id total enrs0 :
  preserves registryOk (onNodes srcId src id total enrs0).
Proof.
  intros s Hs. pose proof (onNodes_registry s srcId src id total enrs0) as Hreg.
  simpl in Hreg.
  destruct (activeRequests s !! id) as [[req l]|] eqn:Har; [|rewrite Hreg; exact Hs].
  assert (Hdel : forall i r l', delete id (activeRequests s) !! i = Some (r, l') ->
                   activeRequests s !! i = Some (r, l')).
  { intros i r l' Hr. apply lookup_delete_Some in Hr. apply Hr. }
  destruct (requestMatchesResponse _ _).
  - rewrite Hreg. intros i r l' Hr. simpl in Hr. apply (Hs i r l'), Hdel, Hr.
  - destruct (Z.gtb total 1 && _).
    + rewrite Hreg. intros i r l'. simpl.
      destruct (decide (id = i)) as [<-|Hne].
      * rewrite lookup_insert_eq. intros [= <- <-]. apply (Hs id req l Har).
      * rewrite lookup_insert_ne by exact Hne. intros Hr. apply (Hs i r l'), Hdel, Hr.
    + destruct Hreg as [Hreq _]. intros i r l' Hr. rewrite Hreq in Hr.
      apply (Hs i r l'), Hdel, Hr.
Qed.

Lemma sendLookup_registryOk lookupId tgt peer :
  preserves registryOk (sendLookup lookupId tgt peer).
Proof.
  assert (Hids : forall (s : State) n, registryOk s -> registryOk (setIdsDrawn n s))
    by (intros; assumption).
  unfold sendLookup. destruct (Z.eqb_spec (findNodeLog2Distance tgt peer) 0) as [_|Hd].
  - repeat step_keeps; keep_registryOk.
  - apply createFindNode_then; [exact Hids|]. intros i.
    apply sendRequest_registryOk. simpl. eauto.
Qed.

Lemma onPong_registryOk srcId src id enrSeq ip p :
  preserves registryOk (onPong srcId src id enrSeq ip p).
Proof.
  assert (Hids : forall (s : State) n, registryOk s -> registryOk (setIdsDrawn n s))
    by (intros; assumption).
  pose proof retrieveRequest_registryOk as H1. pose proof connectionUpdated_registryOk as H2.
  unfold onPong.
  repeat first
    [ apply createFindNode_then;
      [exact Hids|intros ?; apply sendRequest_registryOk; simpl; right; reflexivity]
    | step_keeps ].
Qed.

Lemma handle_registryOk e : preserves registryOk (handle e).
Proof.
  pose proof sendPing_registryOk as H1. pose proof discovered_registryOk as H2.
  pose proof connectionUpdated_registryOk as H3. pose proof sendNodesFrom_registryOk as H4.
  pose proof retrieveRequest_registryOk as H5. pose proof onNodes_registryOk as H6.
  pose proof sendLookup_registryOk as H7. pose proof onPong_registryOk as H8.
  destruct e; simpl;
    unfold whenStarted, start, stop, addEnr, findNode, onLookupFinished,
      onPendingEviction, onAppliedEviction, onEstablished, onMessage,
      onWhoAreYouRequest, onRequestFailed, onInterval;
    repeat step_keeps;
    unfold onPing, onFindNode, requestEnr;
    repeat step_keeps; try keep_registryOk.
Qed.

Lemma run_registryOk events : forall s : State, registryOk s -> registryOk (run events s).
Proof.
  induction events as [|e es IH]; intros s Hs; simpl; [exact Hs|].
  apply IH, handle_registryOk, Hs.
Qed.

(** X9. Whatever inputs a new instance has handled, every entry of
    [activeRequests] is filed under the id of the request it holds; an
    entry with a lookup id holds a FINDNODE for a distance that is not
    zero, and an entry without one holds a PING or a FINDNODE for distance
    0. *)
Theorem X9_registry_entries_well_formed (localEnr : ENR) (events : list Event) id req l :
  activeRequests (run events (newDiscv5 localEnr) : State) !! id = Some (req, l) ->
  reqId req = id /\
  match l with
  | Some _ => exists d, req = IFindNodeMessage id d /\ d <> 0
  | None => (exists q, req = IPingMessage id q) \/ req = IFindNodeMessage id 0
  end.
Proof.
  apply (run_registryOk events (newDiscv5 localEnr)).
  intros i r l' Hr. simpl in Hr. rewrite lookup_empty in Hr. discriminate Hr.
Qed.

(** ** discovered *)

Lemma setKbuckets_same (s : State) : setKbuckets (kbuckets s) s = s.
Proof. destruct s; reflexivity. Qed.

Lemma setActiveLookups_same (s : State) : setActiveLookups (activeLookups s) s = s.
Proof. destruct s; reflexivity. Qed.

Lemma discoveredStep_eq (s : State) e :
  exists t tr,
    discoveredStep e s =
      (Ok tt, setTrace (trace s ++ Emit (Discovered e) :: tr) (setKbuckets t s)) /\
    discoveredEnrs tr = [] /\ sessionCalls tr = [].
Proof.
  unfold discoveredStep, emit, effect. rewrite bind_modify, bind_get. simpl.
  destruct (getWithPending (kbuckets s) (nodeId e)) as [entry|].
  - destruct (Z.ltb (seq (value entry)) (seq e)).
    + exists (updateValue (kbuckets s) e), [UpdateEnr e].
      rewrite bind_modify. unfold modify. simpl. rewrite <- app_assoc. auto.
    + exists (kbuckets s), []. unfold ret. rewrite setKbuckets_same. auto.
  - exists (kbuckets s), [UpdateEnr e]. unfold modify. simpl.
    rewrite <- app_assoc, setKbuckets_same. auto.
Qed.

Lemma discoveredLoop_eq (others : list ENR) : forall s : State,
  exists t tr,
    forEach others discoveredStep s = (Ok tt, setTrace (trace s ++ tr) (setKbuckets t s)) /\
    discoveredEnrs tr = others /\ sessionCalls tr = [].
Proof.
  induction others as [|e others IH]; intros s; simpl.
  - exists (kbuckets s), []. unfold ret. rewrite setKbuckets_same, setTrace_nil. auto.
  - destruct (discoveredStep_eq s e) as (t1 & tr1 & H1 & Hd1 & Hc1).
    rewrite (bind_ok _ _ _ _ _ H1).
    destruct (IH (setTrace (trace s ++ Emit (Discovered e) :: tr1) (setKbuckets t1 s)))
      as (t2 & tr2 & H2 & Hd2 & Hc2).
    exists t2, (Emit (Discovered e) :: tr1 ++ tr2). rewrite H2. simpl.
    split; [|split].
    + rewrite <- app_assoc. reflexivity.
    + unfold discoveredEnrs in *. simpl. rewrite omap_app, Hd1, Hd2. reflexivity.
    + unfold sessionCalls in *. simpl. rewrite omap_app, Hc1, Hc2. reflexivity.
Qed.

Lemma discovered_eq (s : State) srcId es l :
  let others := List.filter (fun e => negb (N.eqb (nodeId e) (nodeId (enr s)))) es in
  exists t tr,
    discovered srcId es l s =
      (Ok tt, setTrace (trace s ++ tr)
                (setActiveLookups (lookupsAfter l others (activeLookups s)) (setKbuckets t s))) /\
    discoveredEnrs tr = others /\ sessionCalls tr = [] /\
    (forall l' lk, l = Some l' -> l' <> 0 -> jsGet l' (activeLookups s) = Some lk ->
       exists tr', tr = tr' ++ [LookupOnSuccess l' srcId (map nodeId others)]).
Proof.
  intros others. unfold discovered. rewrite bind_get. fold others.
  change (fun enr0 : ENR => _) with discoveredStep.
  destruct (discoveredLoop_eq others s) as (t & tr & Hloop & Hd & Hc).
  rewrite (bind_ok _ _ _ _ _ Hloop).
  set (s1 := setTrace (trace s ++ tr) (setKbuckets t s)).
  assert (Hsame : (Ok tt, s1) =
            (Ok tt, setTrace (trace s ++ tr) (setActiveLookups (activeLookups s) (setKbuckets t s)))).
  { subst s1. destruct s; reflexivity. }
  unfold lookupsAfter. destruct l as [l'|].
  - destruct (Z.eqb_spec l' 0) as [->|Hne].
    + exists t, tr. unfold ret. split; [exact Hsame|]. split; [exact Hd|]. split; [exact Hc|].
      intros ? ? [= <-] Hz. contradiction.
    + rewrite bind_get. change (activeLookups s1) with (activeLookups s).
      destruct (jsGet l' (activeLookups s)) as [lk|] eqn:Hlk.
      * exists t, (tr ++ [LookupOnSuccess l' srcId (map nodeId others)]).
        rewrite bind_modify. unfold effect, modify. simpl. split; [|split; [|split]].
        -- rewrite <- app_assoc. reflexivity.
        -- unfold discoveredEnrs in *. rewrite omap_app, Hd. apply app_nil_r.
        -- unfold sessionCalls in *. rewrite omap_app, Hc. reflexivity.
        -- intros ? ? [= <-] _ _. eauto.
      * exists t, tr. unfold ret. split; [exact Hsame|]. split; [exact Hd|]. split; [exact Hc|].
        intros ? ? [= <-] _ Hl. congruence.
  - exists t, tr. unfold ret. split; [exact Hsame|]. split; [exact Hd|]. split; [exact Hc|].
    intros ? ? Hl. discriminate Hl.
Qed.

(** X10. [discovered] emits one [discovered] event for each ENR it is
    given that is not the local node's, in the order given, and none for
    the local node's; it hands no message to the session service and
    leaves the request maps, the connected peers and the local ENR as they
    are. *)
Theorem X10_discovered_events (s : State) srcId es l :
  let s' := exec (discovered srcId es l) s in
  fst (discovered srcId es l s) = Ok tt /\
  discoveredEnrs (trace s') =
    discoveredEnrs (trace s)
    ++ List.filter (fun e => negb (N.eqb (nodeId e) (nodeId (enr s)))) es /\
  sessionCalls (trace s') = sessionCalls (trace s) /\
  activeRequests s' = activeRequests s /\
  activeNodesResponses s' = activeNodesResponses s /\
  connectedPeers s' = connectedPeers s /\
  enr s' = enr s.
Proof.
  intros s'. subst s'. unfold exec.
  destruct (discovered_eq s srcId es l) as (t & tr & Heq & Hd & Hc & _).
  rewrite Heq. simpl.
  unfold discoveredEnrs, sessionCalls in *. rewrite !omap_app, Hd, Hc, app_nil_r. auto 10.
Qed.

(** ** The untrusted ENRs of a lookup *)

Lemma pushUntrusted_spec (l : list ENR) e :
  (In (nodeId e) (map nodeId l) /\ pushUntrusted l e = l) \/
  (~ In (nodeId e) (map nodeId l) /\ pushUntrusted l e = l ++ [e]).
Proof.
  unfold pushUntrusted.
  destruct (List.find (fun x => N.eqb (nodeId x) (nodeId e)) l) as [x|] eqn:Hf.
  - left. split; [|reflexivity]. apply find_some in Hf. destruct Hf as [Hin Heq].
    apply N.eqb_eq in Heq. rewrite <- Heq. apply in_map, Hin.
  - right. split; [|reflexivity]. intros Hin. apply in_map_iff in Hin.
    destruct Hin as (x & Hx & Hin). pose proof (find_none _ _ Hf x Hin) as Hn.
    simpl in Hn. apply N.eqb_neq in Hn. congruence.
Qed.

Lemma pushAll_spec (es : list ENR) : forall l,
  (exists more, fold_left pushUntrusted es l = l ++ more) /\
  (forall e, In e es -> In (nodeId e) (map nodeId (fold_left pushUntrusted es l))) /\
  (List.NoDup (map nodeId l) -> List.NoDup (map nodeId (fold_left pushUntrusted es l))).
Proof.
  induction es as [|e es IH]; intros l; simpl.
  - split; [exists []; symmetry; apply app_nil_r|]. split; [intros ? []|auto].
  - destruct (IH (pushUntrusted l e)) as ([more Hmore] & Hcov & Hnd).
    destruct (pushUntrusted_spec l e) as [[Hin Heq]|[Hout Heq]]; rewrite Heq in *.
    + split; [eauto|]. split; [|exact Hnd].
      intros e' [<-|He']; [|apply Hcov, He'].
      rewrite Hmore, map_app. apply in_or_app. left. exact Hin.
    + split; [exists ([e] ++ more); rewrite Hmore, <- app_assoc; reflexivity|].
      split.
      * intros e' [<-|He']; [|apply Hcov, He'].
        rewrite Hmore, !map_app. apply in_or_app. left. apply in_or_app. right. left.
        reflexivity.
      * intros Hl. apply Hnd. rewrite map_app. simpl.
        apply NoDup_app; [exact Hl|repeat constructor; intros []|].
        intros a Ha [<-|[]]. contradiction.
Qed.

Lemma jsGet_jsSet {V} k k' (v : V) m :
  jsGet k' (jsSet k v m) = if Z.eqb k' k then Some v else jsGet k' m.
Proof.
  induction m as [|[k0 v0] m IH]; simpl.
  - reflexivity.
  - destruct (Z.eqb_spec k k0) as [->|Hne]; simpl.
    + destruct (Z.eqb k' k0); reflexivity.
    + rewrite IH. destruct (Z.eqb_spec k' k0) as [->|]; [|reflexivity].
      destruct (Z.eqb_spec k0 k); [congruence|reflexivity].
Qed.

(** X11. When [discovered] is told a lookup id that is live, that lookup
    is told of the success with the node ids of the ENRs that are not the
    local node's, as the last thing done; its untrusted ENRs keep what they
    held and gain, at the end, an ENR for every such node they had none
    for, so that afterwards every such node has one and, if no node had two
    before, none has two; the other lookups are as they were. *)
Theorem X11_discovered_feeds_lookup (s : State) srcId es lookupId lk :
  lookupId <> 0 ->
  jsGet lookupId (activeLookups s) = Some lk ->
  let others := List.filter (fun e => negb (N.eqb (nodeId e) (nodeId (enr s)))) es in
  let s' := exec (discovered srcId es (Some lookupId)) s in
  exists lk',
    jsGet lookupId (activeLookups s') = Some lk' /\
    target lk' = target lk /\ knownClosestPeers lk' = knownClosestPeers lk /\
    (exists more, untrustedEnrs lk' = untrustedEnrs lk ++ more) /\
    (forall e, In e others -> In (nodeId e) (map nodeId (untrustedEnrs lk'))) /\
    (List.NoDup (map nodeId (untrustedEnrs lk)) ->
     List.NoDup (map nodeId (untrustedEnrs lk'))) /\
    (forall l', l' <> lookupId ->
       jsGet l' (activeLookups s') = jsGet l' (activeLookups s)) /\
    (exists tr, trace s' = tr ++ [LookupOnSuccess lookupId srcId (map nodeId others)]).
Proof.
  intros Hne Hlk others s'. subst s'. unfold exec.
  destruct (discovered_eq s srcId es (Some lookupId)) as (t & tr & Heq & _ & _ & Hlast).
  fold others in Heq, Hlast. rewrite Heq. simpl.
  destruct (Z.eqb_spec lookupId 0) as [|_]; [contradiction|]. rewrite Hlk.
  destruct (pushAll_spec others (untrustedEnrs lk)) as (Hpre & Hcov & Hnd).
  eexists. rewrite jsGet_jsSet, Z.eqb_refl. split; [reflexivity|]. simpl.
  repeat split; try assumption.
  - intros l' Hl'. rewrite jsGet_jsSet.
    destruct (Z.eqb_spec l' lookupId); [contradiction|reflexivity].
  - destruct (Hlast lookupId lk eq_refl Hne Hlk) as [tr' ->].
    exists (trace s ++ tr'). rewrite app_assoc. reflexivity.
Qed.

(** ** findNode and its finished listener *)

Lemma jsDelete_jsSet {V} k (v : V) m : jsDelete k (jsSet k v m) = jsDelete k m.
Proof.
  induction m as [|[k0 v0] m IH]; simpl.
  - rewrite Z.eqb_refl. reflexivity.
  - destruct (Z.eqb_spec k k0) as [->|Hne]; simpl.
    + rewrite Z.eqb_refl. reflexivity.
    + destruct (Z.eqb_spec k k0); [contradiction|]. rewrite IH. reflexivity.
Qed.

Lemma jsDelete_absent {V} k (m : list (Z * V)) : ~ In k (jsKeys m) -> jsDelete k m = m.
Proof.
  induction m as [|[k0 v0] m IH]; simpl; intros Hout; [reflexivity|].
  destruct (Z.eqb_spec k k0) as [->|Hne].
  - exfalso. apply Hout. left. reflexivity.
  - rewrite IH; [reflexivity|]. intros Hin. apply Hout. right. exact Hin.
Qed.

(** X12. [findNode] files the new lookup under the id it returns, which is
    the counter's value before the call, with the ids of the 16 nearest
    records as known closest peers and no untrusted ENR; it leaves the
    other lookups as they are and starts the lookup. When the lookup's
    [finished] comes next, the listener resolves with the ENRs that
    [findEnr] has for the closest ids, in order, leaving out the ids it has
    none for, and deletes the lookup: [activeLookups] is then as it was
    before [findNode] when no live lookup had that id, and when one had
    (the counter has wrapped) that earlier lookup is gone as well. *)
Theorem X12_lookup_lives_until_finished (s : State) tgt closest :
  let lookupId := nextLookupId s in
  let s1 := exec (findNode tgt) s in
  let s2 := exec (onLookupFinished lookupId closest) s1 in
  fst (findNode tgt s) = Ok lookupId /\
  jsGet lookupId (activeLookups s1)
    = Some (mkLookup tgt (map nodeId (nearest (kbuckets s) tgt 16)) []) /\
  (forall l, l <> lookupId -> jsGet l (activeLookups s1) = jsGet l (activeLookups s)) /\
  trace s2 = trace s ++ [LookupStart lookupId; Resolve lookupId (omap (findEnr s1) closest)] /\
  activeLookups s2 = jsDelete lookupId (activeLookups s) /\
  (~ In lookupId (jsKeys (activeLookups s)) -> activeLookups s2 = activeLookups s).
Proof.
  intros lookupId s1 s2.
  assert (Hs1 : findNode tgt s = (Ok lookupId, s1)).
  { subst s1. unfold exec. rewrite findNode_eq. reflexivity. }
  assert (Hl : activeLookups s1 = jsSet lookupId
                 (mkLookup tgt (map nodeId (nearest (kbuckets s) tgt 16)) []) (activeLookups s)).
  { subst s1. unfold exec. rewrite findNode_eq. reflexivity. }
  assert (Ht : trace s1 = trace s ++ [LookupStart lookupId]).
  { subst s1. unfold exec. rewrite findNode_eq. reflexivity. }
  assert (Hs2 : s2 = setActiveLookups (jsDelete lookupId (activeLookups s1))
                       (setTrace (trace s1 ++ [Resolve lookupId (omap (findEnr s1) closest)]) s1)).
  { subst s2. reflexivity. }
  clearbody s2 s1. subst s2. simpl. rewrite Hs1, Hl, Ht, jsDelete_jsSet.
  split; [reflexivity|]. split; [rewrite jsGet_jsSet, Z.eqb_refl; reflexivity|].
  split.
  { intros l Hne. rewrite jsGet_jsSet. destruct (Z.eqb_spec l lookupId); [contradiction|].
    reflexivity. }
  split; [rewrite <- app_assoc; reflexivity|].
  split; [reflexivity|].
  intros Hout. apply jsDelete_absent, Hout.
Qed.

(** ** findEnr *)

(** X13. [findEnr] answers with the table's ENR when the table has one;
    otherwise with an ENR that carries the id asked for and is among the
    untrusted ENRs of a live lookup; and it answers with nothing exactly
    when the table has none and no live lookup holds an ENR with that id. *)
Theorem X13_findEnr_sound_and_complete (s : State) id :
  (forall e, getValue (kbuckets s) id = Some e -> findEnr s id = Some e) /\
  (forall e, getValue (kbuckets s) id = None -> findEnr s id = Some e ->
     nodeId e = id /\
     exists lk, In lk (jsValues (activeLookups s)) /\ In e (untrustedEnrs lk)) /\
  (findEnr s id = None <->
     getValue (kbuckets s) id = None /\
     forall lk e, In lk (jsValues (activeLookups s)) -> In e (untrustedEnrs lk) ->
                  nodeId e <> id).
Proof.
  unfold findEnr. destruct (getValue (kbuckets s) id) as [e0|].
  - split; [auto|]. split; [discriminate|]. split; [discriminate|]. intros [? _]. discriminate.
  - split; [discriminate|]. split.
    + intros e _ Hf. apply find_some in Hf. destruct Hf as [Hin Heq].
      apply N.eqb_eq in Heq. split; [exact Heq|].
      apply in_concat in Hin. destruct Hin as (l & Hl & He).
      apply in_map_iff in Hl. destruct Hl as (lk & <- & Hlk). eauto.
    + split.
      * intros Hf. split; [reflexivity|]. intros lk e Hlk He.
        assert (Hin : In e (concat (map untrustedEnrs (jsValues (activeLookups s))))).
        { apply in_concat. exists (untrustedEnrs lk). split; [apply in_map, Hlk|exact He]. }
        pose proof (find_none _ _ Hf e Hin) as Hn. simpl in Hn. apply N.eqb_neq, Hn.
      * intros [_ Hall].
        destruct (List.find _ _) as [e|] eqn:Hf; [|reflexivity].
        apply find_some in Hf. destruct Hf as [Hin Heq]. apply N.eqb_eq in Heq.
        apply in_concat in Hin. destruct Hin as (l & Hl & He).
        apply in_map_iff in Hl. destruct Hl as (lk & <- & Hlk).
        exfalso. exact (Hall lk e Hlk He Heq).
Qed.

(** ** onRequestFailed *)

Lemma connectionUpdated_disconnected (s : State) n :
  exists t, connectionUpdated n None Disconnected s = (Ok tt, setKbuckets t s) /\
            (getWithPending (kbuckets s) n = None -> t = kbuckets s).
Proof.
  unfold connectionUpdated. rewrite bind_get.
  destruct (getWithPending (kbuckets s) n).
  - eexists. split; [reflexivity|discriminate].
  - exists (kbuckets s). unfold ret. rewrite setKbuckets_same. auto.
Qed.

(** X14. A [requestFailed] about a peer that is not in the table and not
    connected, for an id that is not registered, changes nothing. *)
Theorem X14_failure_of_a_stranger_is_ignored (s : State) srcId rpcId :
  activeRequests s !! rpcId = None ->
  getWithPending (kbuckets s) srcId = None ->
  connectedPeers s !! srcId = None ->
  onRequestFailed srcId rpcId s = (Ok tt, s).
Proof.
  intros Hr Ht Hc. unfold onRequestFailed. rewrite bind_get, Hr.
  unfold ret at 1. unfold bind at 1.
  destruct (connectionUpdated_disconnected s srcId) as (t & Hcu & Hsame).
  rewrite (bind_ok _ _ _ _ _ Hcu), (Hsame Ht), setKbuckets_same.
  rewrite bind_get, Hc. simpl. unfold ret at 1. unfold bind, modify.
  rewrite (delete_id _ _ Hc). destruct s; reflexivity.
Qed.

(** X15. A lookup's probe that goes out and then fails is reported to the
    lookup: when [sendLookup] hands a FINDNODE to the session service
    without a throw, and [requestFailed] then comes for that request while
    the lookup is live and no NODES packet is held for the id, the lookup is
    told of the failure of that peer, nothing else is emitted or sent, and
    the request stays registered. *)
Theorem X15_failed_probe_reported_to_lookup (s : State) lookupId tgt peer dst lk :
  findNodeLog2Distance tgt peer <> 0 ->
  getValue (kbuckets s) (peerNodeId peer) = Some dst ->
  jsGet lookupId (activeLookups s) = Some lk ->
  let req := IFindNodeMessage (requestIds (idsDrawn s)) (findNodeLog2Distance tgt peer) in
  sessionThrows (trace s) (SendRequest dst req) = false ->
  activeNodesResponses s !! reqId req = None ->
  let s1 := exec (sendLookup lookupId tgt peer) s in
  let s2 := exec (onRequestFailed (peerNodeId peer) (reqId req)) s1 in
  activeRequests s1 !! reqId req = Some (req, Some lookupId) /\
  trace s2 = trace s ++ [Session (SendRequest dst req) false;
                         LookupOnFailure lookupId (peerNodeId peer)] /\
  activeRequests s2 = activeRequests s1.
Proof.
  intros Hd Hdst Hlk req Hok Hacc s1 s2.
  assert (H1 : sendLookup lookupId tgt peer s =
               (Ok tt, setActiveRequests (<[reqId req := (req, Some lookupId)]> (activeRequests s))
                         (setTrace (trace s ++ [Session (SendRequest dst req) false])
                            (setIdsDrawn (S (idsDrawn s)) s)))).
  { unfold sendLookup. destruct (Z.eqb_spec (findNodeLog2Distance tgt peer) 0); [contradiction|].
    change (bind (createFindNodeMessage (findNodeLog2Distance tgt peer)) ?k s)
      with (k req (setIdsDrawn (S (idsDrawn s)) s)).
    cbv beta. rewrite (sendRequest_known _ _ _ _ dst) by exact Hdst. cbv zeta. simpl trace.
    rewrite Hok. reflexivity. }
  assert (Hs1 : s1 = setActiveRequests (<[reqId req := (req, Some lookupId)]> (activeRequests s))
                       (setTrace (trace s ++ [Session (SendRequest dst req) false])
                          (setIdsDrawn (S (idsDrawn s)) s))).
  { subst s1. unfold exec. rewrite H1. reflexivity. }
  split; [rewrite Hs1; simpl; apply lookup_insert_eq|].
  split; [|apply onRequestFailed_requests].
  subst s2. clearbody s1. subst s1. unfold exec, onRequestFailed.
  rewrite bind_get. simpl activeRequests. rewrite lookup_insert_eq. simpl reqType. cbv iota.
  simpl activeNodesResponses. rewrite Hacc. simpl activeLookups. rewrite Hlk.
  unfold effect at 1. rewrite bind_modify.
  match goal with |- context [bind (connectionUpdated _ _ _) _ ?st] =>
    destruct (connectionUpdated_disconnected st (peerNodeId peer)) as (t & Hcu & _) end.
  rewrite (bind_ok _ _ _ _ _ Hcu). rewrite bind_get.
  destruct (connectedPeers _ !! peerNodeId peer); unfold bind, clearInterval, modify, ret; simpl;
    rewrite <- app_assoc; reflexivity.
Qed.

(** ** What the inverted check of retrieveRequest leaves of discovery *)

Lemma discoveredEnrs_snoc tr e :
  isDiscovered e = None -> discoveredEnrs (tr ++ [e]) = discoveredEnrs tr.
Proof. intros He. unfold discoveredEnrs. rewrite omap_app. simpl. rewrite He. apply app_nil_r. Qed.

Lemma jsGet_In {V} k (m : list (Z * V)) v : jsGet k m = Some v -> In v (jsValues m).
Proof.
  induction m as [|[k0 v0] m IH]; simpl; [discriminate|].
  destruct (Z.eqb k k0); [intros [= <-]; left; reflexivity|]. intros Hg. right. apply IH, Hg.
Qed.

Lemma Forall_jsSet {V} (P : V -> Prop) k v m :
  P v -> Forall P (jsValues m) -> Forall P (jsValues (jsSet k v m)).
Proof.
  intros Hv. induction m as [|[k0 v0] m IH]; simpl; intros Hm.
  - constructor; [exact Hv|constructor].
  - inversion Hm; subst. destruct (Z.eqb k k0); simpl; constructor; auto.
Qed.

Lemma Forall_jsDelete {V} (P : V -> Prop) k (m : list (Z * V)) :
  Forall P (jsValues m) -> Forall P (jsValues (jsDelete k m)).
Proof.
  induction m as [|[k0 v0] m IH]; simpl; intros Hm; [constructor|].
  inversion Hm; subst. destruct (Z.eqb k k0); simpl; [auto|constructor; auto].
Qed.

Ltac keep_nothingFound :=
  intros;
  match goal with
  | Hs : nothingFound _ |- nothingFound _ =>
      let Hd := fresh "Hd" in let Ha := fresh "Ha" in let Hl := fresh "Hl" in
      destruct Hs as (Hd & Ha & Hl); split; [|split]; simpl;
      [ first [ exact Hd | rewrite discoveredEnrs_snoc by reflexivity; exact Hd ]
      | first [ exact Ha
              | let i := fresh "i" in let r := fresh "r" in let Hr := fresh "Hr" in
                intros i r Hr;
                first [ apply lookup_delete_Some in Hr; destruct Hr as [_ Hr]; exact (Ha i r Hr)
                      | rewrite lookup_empty in Hr; discriminate Hr ] ]
      | first [ exact Hl
              | apply Forall_jsDelete; exact Hl
              | apply Forall_jsSet; [reflexivity|exact Hl]
              | constructor ] ]
  end.

Lemma discovered_nil_nothingFound srcId l : preserves nothingFound (discovered srcId [] l).
Proof.
  intros s (Hd & Ha & Hl). unfold exec.
  destruct (discovered_eq s srcId [] l) as (t & tr & Heq & Htr & _).
  rewrite Heq. simpl in Htr. split; [|split]; simpl.
  - unfold discoveredEnrs in *. rewrite omap_app, Hd, Htr. reflexivity.
  - exact Ha.
  - unfold lookupsAfter. destruct l as [l'|]; [|exact Hl].
    destruct (Z.eqb l' 0); [exact Hl|].
    destruct (jsGet l' (activeLookups s)) as [lk|] eqn:Hlk; [|exact Hl].
    apply Forall_jsSet; [|exact Hl]. simpl.
    apply jsGet_In in Hlk. rewrite Forall_forall in Hl. apply Hl, Hlk.
Qed.

Lemma sendRequest_nothingFound n req l : preserves nothingFound (sendRequest n req l).
Proof. unfold sendRequest. repeat step_keeps; keep_nothingFound. Qed.

Lemma sendPing_nothingFound n : preserves nothingFound (sendPing n).
Proof.
  pose proof sendRequest_nothingFound as H1.
  unfold sendPing. repeat step_keeps; keep_nothingFound.
Qed.

Lemma connectionUpdated_nothingFound n e st : preserves nothingFound (connectionUpdated n e st).
Proof. unfold connectionUpdated. repeat step_keeps; keep_nothingFound. Qed.

Lemma retrieveRequest_nothingFound srcId m : preserves nothingFound (retrieveRequest srcId m).
Proof. unfold retrieveRequest. repeat step_keeps; keep_nothingFound. Qed.

Lemma sendNodesFrom_nothingFound fuel nodes src srcId id total :
  forall i, preserves nothingFound (sendNodesFrom fuel i nodes src srcId id total).
Proof. induction fuel as [|fuel IH]; intros i; simpl; repeat step_keeps; keep_nothingFound. Qed.

Lemma filter_no_distance (f : ENR -> Z) (l : list ENR) :
  List.filter (fun e => bool_decide (Some (f e) = None)) l = [].
Proof. induction l as [|e l IH]; simpl; [reflexivity|exact IH]. Qed.

(** A NODES packet that [retrieveRequest] hands on belongs to a request
    without a distance, so the filter of [onNodes] keeps none of its ENRs. *)
Lemma onNodes_nothingFound srcId src id total enrs0 :
  preserves nothingFound (onNodes srcId src id total enrs0).
Proof.
  intros s Hs. unfold exec, onNodes.
  pose proof (retrieveRequest_eq s srcId (INodesMessage id total enrs0)) as Hrr.
  simpl resId in Hrr.
  destruct (activeRequests s !! id) as [[req l]|] eqn:Har.
  2:{ rewrite (bind_ok _ _ _ _ _ Hrr). exact Hs. }
  assert (Hs1 : nothingFound (setActiveRequests (delete id (activeRequests s)) s))
    by (revert Hs; clear; keep_nothingFound).
  destruct req as [rid q|rid d]; simpl in Hrr; rewrite (bind_ok _ _ _ _ _ Hrr); [|exact Hs1].
  set (s1 := setActiveRequests (delete id (activeRequests s)) s) in *. clearbody s1.
  rewrite bind_get. simpl reqDistance.
  rewrite (filter_no_distance (fun e => log2Distance (nodeId e) (nodeId (enr s1)))).
  assert (Hcur : enrs (default (mkNodesResponse 1 []) (activeNodesResponses s1 !! id)) = []).
  { destruct Hs1 as (_ & Ha & _).
    destruct (activeNodesResponses s1 !! id) as [r|] eqn:Hr; [exact (Ha id r Hr)|reflexivity]. }
  assert (Hfin : forall s2 : State, nothingFound s2 ->
            nothingFound (bind (modify (fun s => setActiveNodesResponses
                                          (delete id (activeNodesResponses s)) s))
                            (fun _ => discovered srcId [] l) s2).2).
  { intros s2 Hs2. rewrite bind_modify. apply discovered_nil_nothingFound.
    revert Hs2. clear. keep_nothingFound. }
  destruct (Z.gtb total 1); [|apply Hfin, Hs1].
  rewrite bind_get, bind_modify.
  destruct (_ && _).
  - rewrite bind_modify. unfold modify. simpl.
    destruct Hs1 as (Hd & Ha & Hl). split; [exact Hd|]. split; [|exact Hl]. simpl.
    intros i r. destruct (decide (id = i)) as [<-|Hne].
    + rewrite lookup_insert_eq. intros [= <-]. exact Hcur.
    + rewrite lookup_insert_ne, lookup_delete_ne by exact Hne. apply Ha.
  - rewrite Hcur. simpl app.
    change (nothingFound (exec (discovered srcId [] l)
              (setActiveNodesResponses
                 (delete id (activeNodesResponses
                    (setActiveNodesResponses (delete id (activeNodesResponses s1)) s1)))
                 (setActiveNodesResponses (delete id (activeNodesResponses s1)) s1)))).
    apply discovered_nil_nothingFound.
    destruct Hs1 as (Hd & Ha & Hl). split; [exact Hd|]. split; [|exact Hl]. simpl.
    intros i r Hr. apply lookup_delete_Some in Hr. destruct Hr as [_ Hr].
    apply lookup_delete_Some in Hr. destruct Hr as [_ Hr]. exact (Ha i r Hr).
Qed.

Lemma preserves_bind_at {A B} (P : State -> Prop) (m : M A) (k : A -> M B) (s : State) :
  P (exec m s) -> (forall a, preserves P (k a)) -> P (exec (bind m k) s).
Proof.
  intros Hm Hk. rewrite exec_bind. unfold exec in Hm.
  destruct (m s) as [[a|] s']; simpl in Hm; [apply Hk|]; exact Hm.
Qed.

Lemma onRequestFailed_nothingFound srcId rpcId :
  preserves nothingFound (onRequestFailed srcId rpcId).
Proof.
  pose proof connectionUpdated_nothingFound as H1.
  intros s Hs. unfold onRequestFailed, exec. rewrite bind_get.
  match goal with |- nothingFound (bind ?m ?k ?s).2 =>
    change (nothingFound (exec (bind m k) s)) end.
  apply preserves_bind_at; [|intros ?; repeat step_keeps; keep_nothingFound].
  unfold exec.
  destruct (activeRequests s !! rpcId) as [[req l]|]; [|exact Hs].
  destruct (reqType req); try exact Hs.
  destruct (activeNodesResponses s !! rpcId) as [r|] eqn:Hr.
  - rewrite bind_modify. destruct Hs as (Hd & Ha & Hl). rewrite (Ha rpcId r Hr).
    apply discovered_nil_nothingFound. split; [exact Hd|]. split; [|exact Hl]. simpl.
    intros i r' Hr'. apply lookup_delete_Some in Hr'. destruct Hr' as [_ Hr']. exact (Ha i r' Hr').
  - destruct l as [l|]; [|exact Hs].
    destruct (jsGet l (activeLookups s)); [|exact Hs].
    revert Hs. unfold effect, modify. simpl. clear. keep_nothingFound.
Qed.

Lemma handle_nothingFound e : preserves nothingFound (handle e).
Proof.
  pose proof sendPing_nothingFound as H1. pose proof sendRequest_nothingFound as H2.
  pose proof connectionUpdated_nothingFound as H3. pose proof sendNodesFrom_nothingFound as H4.
  pose proof retrieveRequest_nothingFound as H5. pose proof onNodes_nothingFound as H6.
  pose proof onRequestFailed_nothingFound as H7.
  destruct e; simpl;
    unfold whenStarted, start, stop, addEnr, findNode, sendLookup, onLookupFinished,
      onPendingEviction, onAppliedEviction, onEstablished, onMessage,
      onWhoAreYouRequest, onInterval;
    repeat step_keeps;
    unfold onPing, onPong, onFindNode, requestEnr;
    repeat step_keeps; try keep_nothingFound.
Qed.

Lemma run_nothingFound events : forall s : State, nothingFound s -> nothingFound (run events s).
Proof.
  induction events as [|e es IH]; intros s Hs; simpl; [exact Hs|].
  apply IH, handle_nothingFound, Hs.
Qed.

(** X16. With [retrieveRequest] as it is written (it hands a stored request
    on only when [requestMatchesResponse] is false, and
    [requestMatchesResponse] pairs FINDNODE with NODES), discovery yields
    nothing: whatever inputs a new instance has handled, it has emitted no
    [discovered] event, no accumulator of NODES packets holds an ENR, and no
    live lookup holds an untrusted ENR. The NODES packets that are handed on
    answer a PING, which has no distance, so the distance filter of
    [onNodes] drops every ENR they carry. *)
Theorem X16_no_run_discovers_a_node (localEnr : ENR) (events : list Event) :
  let s : State := run events (newDiscv5 localEnr) in
  discoveredEnrs (trace s) = [] /\
  (forall id r, activeNodesResponses s !! id = Some r -> enrs r = []) /\
  (forall l lk, jsGet l (activeLookups s) = Some lk -> untrustedEnrs lk = []).
Proof.
  intros s.
  assert (Hs : nothingFound s).
  { apply run_nothingFound. split; [reflexivity|]. split; [|constructor].
    intros i r Hr. simpl in Hr. rewrite lookup_empty in Hr. discriminate Hr. }
  destruct Hs as (Hd & Ha & Hl). split; [exact Hd|]. split; [exact Ha|].
  intros l lk Hlk. apply jsGet_In in Hlk. rewrite Forall_forall in Hl. apply Hl, Hlk.
Qed.

(** ** The registry holds only requests that went out *)

Ltac keep_wentOut :=
  intros;
  match goal with
  | Hs : registeredWentOut _ |- registeredWentOut _ =>
      let i := fresh "i" in let r := fresh "r" in let l := fresh "l" in
      let Hr := fresh "Hr" in let dst := fresh "dst" in let Hin := fresh "Hin" in
      intros i r l Hr; simpl in Hr |- *;
      first
        [ destruct (Hs i r l Hr) as [dst Hin]; exists dst;
          first [ exact Hin | apply in_or_app; left; exact Hin ]
        | apply lookup_delete_Some in Hr; destruct Hr as [_ Hr];
          destruct (Hs i r l Hr) as [dst Hin]; exists dst; exact Hin
        | rewrite lookup_empty in Hr; discriminate Hr ]
  end.

Lemma sendRequest_wentOut n req l : preserves registeredWentOut (sendRequest n req l).
Proof.
  intros s Hs. unfold exec.
  destruct (getValue (kbuckets s) n) as [dst|] eqn:Hn.
  - rewrite (sendRequest_known _ _ _ _ dst Hn). cbv zeta.
    destruct (sessionThrows (trace s) (SendRequest dst req)); simpl.
    + revert Hs. clear. keep_wentOut.
    + intros i r l'. simpl. destruct (decide (reqId req = i)) as [<-|Hne].
      * rewrite lookup_insert_eq. intros [= <- <-]. exists dst.
        apply in_or_app. right. left. reflexivity.
      * rewrite lookup_insert_ne by exact Hne. intros Hr.
        destruct (Hs i r l' Hr) as [d Hin]. exists d. apply in_or_app. left. exact Hin.
  - rewrite (sendRequest_unknown _ _ _ _ Hn). exact Hs.
Qed.

Lemma sendPing_wentOut n : preserves registeredWentOut (sendPing n).
Proof.
  pose proof sendRequest_wentOut as H1.
  unfold sendPing. repeat step_keeps; keep_wentOut.
Qed.

Lemma connectionUpdated_wentOut n e st : preserves registeredWentOut (connectionUpdated n e st).
Proof. unfold connectionUpdated. repeat step_keeps; keep_wentOut. Qed.

Lemma retrieveRequest_wentOut srcId m : preserves registeredWentOut (retrieveRequest srcId m).
Proof. unfold retrieveRequest. repeat step_keeps; keep_wentOut. Qed.

Lemma sendNodesFrom_wentOut fuel nodes src srcId id total :
  forall i, preserves registeredWentOut (sendNodesFrom fuel i nodes src srcId id total).
Proof. induction fuel as [|fuel IH]; intros i; simpl; repeat step_keeps; keep_wentOut. Qed.

Lemma discovered_wentOut srcId es l : preserves registeredWentOut (discovered srcId es l).
Proof. unfold discovered. repeat step_keeps; keep_wentOut. Qed.

Lemma onNodes_wentOut srcId src id total enrs0 :
  preserves registeredWentOut (onNodes srcId src id total enrs0).
Proof.
  pose proof discovered_wentOut as H1.
  intros s Hs. unfold exec, onNodes.
  pose proof (retrieveRequest_eq s srcId (INodesMessage id total enrs0)) as Hrr.
  simpl resId in Hrr.
  destruct (activeRequests s !! id) as [[req l]|] eqn:Har.
  2:{ rewrite (bind_ok _ _ _ _ _ Hrr). exact Hs. }
  destruct (Hs id req l Har) as [dst Hdst].
  assert (Hs1 : registeredWentOut (setActiveRequests (delete id (activeRequests s)) s))
    by (revert Hs; clear; keep_wentOut).
  assert (Hdst1 : In (Session (SendRequest dst req) false)
                    (trace (setActiveRequests (delete id (activeRequests s)) s)))
    by exact Hdst.
  set (s1 := setActiveRequests (delete id (activeRequests s)) s) in *. clearbody s1.
  simpl fst in Hrr.
  destruct (requestMatchesResponse req (INodesMessage id total enrs0));
    rewrite (bind_ok _ _ _ _ _ Hrr); [exact Hs1|].
  rewrite bind_get.
  assert (Hfin : forall es (s2 : State), registeredWentOut s2 ->
            registeredWentOut (bind (modify (fun s => setActiveNodesResponses
                                               (delete id (activeNodesResponses s)) s))
                                 (fun _ => discovered srcId es l) s2).2).
  { intros es s2 Hs2. rewrite bind_modify. apply discovered_wentOut.
    revert Hs2. clear. keep_wentOut. }
  destruct (Z.gtb total 1); [|apply Hfin, Hs1].
  rewrite bind_get, bind_modify.
  destruct (_ && _).
  - rewrite bind_modify. unfold modify. simpl.
    intros i r l'. simpl. destruct (decide (id = i)) as [<-|Hne].
    + rewrite lookup_insert_eq. intros [= <- <-]. exists dst. exact Hdst1.
    + rewrite lookup_insert_ne by exact Hne. apply Hs1.
  - apply Hfin. intros i r l' Hr. exact (Hs1 i r l' Hr).
Qed.

Lemma handle_wentOut e : preserves registeredWentOut (handle e).
Proof.
  pose proof sendPing_wentOut as H1. pose proof sendRequest_wentOut as H2.
  pose proof connectionUpdated_wentOut as H3. pose proof sendNodesFrom_wentOut as H4.
  pose proof retrieveRequest_wentOut as H5. pose proof onNodes_wentOut as H6.
  pose proof discovered_wentOut as H7.
  destruct e; simpl; unfold_handlers;
    repeat step_keeps;
    unfold onPing, onPong, onFindNode, requestEnr;
    repeat step_keeps; try keep_wentOut.
Qed.

Lemma run_wentOut events :
  forall s : State, registeredWentOut s -> registeredWentOut (run events s).
Proof.
  induction events as [|e es IH]; intros s Hs; simpl; [exact Hs|].
  apply IH, handle_wentOut, Hs.
Qed.

(** X17. The registry holds only requests that went out: whatever inputs a
    new instance has handled, for every entry of [activeRequests] the
    session service's [sendRequest] was called with that very request, to
    some ENR, and returned without throwing. *)
Theorem X17_registered_requests_went_out (localEnr : ENR) (events : list Event) id req l :
  let s : State := run events (newDiscv5 localEnr) in
  activeRequests s !! id = Some (req, l) ->
  exists dst, In (Session (SendRequest dst req) false) (trace s).
Proof.
  intros s. apply (run_wentOut events (newDiscv5 localEnr)).
  intros i r l' Hr. simpl in Hr. rewrite lookup_empty in Hr. discriminate Hr.
Qed.

End Theory.

(** * The service on the reference table *)

(** Unless said otherwise, the session service is the one that never throws. *)
#[local] Existing Instance quiet.

Example probingQ_registers :
  activeRequests (run probingQ fresh) !! 11 = Some (IFindNodeMessage 11 200, Some 1) /\
  Forall (fun e => log2Distance (nodeId e) (nodeId enrLocal) = 200)
    [enrA; enrB; enrC; enrD].
Proof. split; [reflexivity|]. repeat constructor. Qed.

(** C1. The spec's reassembly scenario on the code: FINDNODE(id 11, distance 200)
    is registered for Q, then NODES(total 3, [a]), NODES(total 3, [b, c]) and
    NODES(total 3, [d]) arrive from Q, all four records at distance 200. No
    [discovered] event is emitted and no lookup is told of a success: the
    first packet's request is dropped by [retrieveRequest], the others find
    no request. *)
Theorem C1_three_packets_discover_nothing :
  let before := run probingQ fresh in
  let after := run threePackets before in
  activeRequests before !! 11 = Some (IFindNodeMessage 11 200, Some 1) /\
  discoveredEnrs (trace after) = [] /\
  trace after = trace before /\
  activeRequests after !! 11 = None /\
  activeNodesResponses after !! 11 = None.
Proof. vm_compute. repeat split; reflexivity. Qed.

(** C2. A PING to Q is registered under id 11 and fails: Q's status becomes
    Disconnected, its interval is cleared and it leaves the connected peers,
    but the request is still registered. *)
Theorem C2_failed_request_stays_registered :
  let before := establishedQ quiet in
  let after := run [ERequestFailed (nodeId enrQ) 11] before in
  activeRequests before !! 11 = Some (IPingMessage 11 1, None) /\
  activeRequests after !! 11 = Some (IPingMessage 11 1, None) /\
  status <$> getWithPending (kbuckets before) (nodeId enrQ) = Some Connected /\
  status <$> getWithPending (kbuckets after) (nodeId enrQ) = Some Disconnected /\
  connectedPeers before !! nodeId enrQ = Some 0%nat /\
  intervals before !! 0%nat = Some (nodeId enrQ) /\
  intervals after !! 0%nat = None /\
  connectedPeers after !! nodeId enrQ = None.
Proof. vm_compute. repeat split; reflexivity. Qed.

(** C3. FINDNODE(id 7, distance 0) on a started instance with an empty
    table: two NODES responses are handed to the session service, the local
    ENR with total 1 and then an empty one with total 0. *)
Theorem C3_distance_zero_sends_twice :
  sessionCalls (trace (run (findNodeFromQ 0) fresh)) =
  [SendResponse addrQ (nodeId enrQ) (INodesMessage 7 1 [enrLocal]);
   SendResponse addrQ (nodeId enrQ) (INodesMessage 7 0 [])].
Proof. reflexivity. Qed.

(** C4. FINDNODE(id 7, distance 3) on a started instance whose table has
    no record at distance 3: the one NODES response handed to the session
    service has total 0. *)
Theorem C4_empty_response_total_zero :
  valuesOfDistance (kbuckets fresh) 3 = [] /\
  sessionCalls (trace (run (findNodeFromQ 3) fresh)) =
  [SendResponse addrQ (nodeId enrQ) (INodesMessage 7 0 [])].
Proof. split; reflexivity. Qed.

(** C5. A PING is registered under id 11. The PONG that answers it is
    turned away, and a NODES packet with that id is handed the request; the
    entry is removed both times. *)
Theorem C5_matching_pong_turned_away :
  let s := establishedQ quiet in
  let pong := IPongMessage 11 1 (host addrQ) (port addrQ) in
  let nodes := INodesMessage 11 1 [] in
  activeRequests s !! 11 = Some (IPingMessage 11 1, None) /\
  requestMatchesResponse (IPingMessage 11 1) pong = true /\
  fst (retrieveRequest (nodeId enrQ) pong s) = Ok None /\
  requestMatchesResponse (IPingMessage 11 1) nodes = false /\
  fst (retrieveRequest (nodeId enrQ) nodes s) = Ok (Some (IPingMessage 11 1, None)) /\
  activeRequests (exec (retrieveRequest (nodeId enrQ) pong) s) !! 11 = None /\
  activeRequests (exec (retrieveRequest (nodeId enrQ) nodes) s) !! 11 = None.
Proof. vm_compute. repeat split; reflexivity. Qed.

(** C6 at a concrete input: a PING to Q is registered under id 11, and
    seven packets that declare a total of 8 arrive under that id. *)
Lemma C6_witness :
  let s := establishedQ quiet in
  let srcId := nodeId enrQ in
  let packets := [[enrA]; [enrB]; [enrC]; [enrD]; [enrA]; [enrB]; [enrC]] in
  activeNodesResponses s !! 11 = None /\
  ((forall k r,
      activeNodesResponses (receiveNodes srcId addrQ 11 8 (take k packets) s) !! 11 = Some r ->
      count r <= Z.min 8 5) /\
   (acceptedCount srcId addrQ 11 8 packets s <= 5)%nat /\
   (forall k r p,
      let sk := receiveNodes srcId addrQ 11 8 (take k packets) s in
      activeNodesResponses sk !! 11 = Some r ->
      count r = Z.min 8 5 ->
      packets !! k = Some p ->
      let sk' := exec (onNodes srcId addrQ 11 8 p) sk in
      accepted srcId 11 8 p sk = true /\
      activeRequests sk' !! 11 = None /\
      activeNodesResponses sk' !! 11 = None /\
      forall more,
        acceptedCount srcId addrQ 11 8 more sk' = 0%nat /\
        receiveNodes srcId addrQ 11 8 more sk' = sk') /\
   (forall localEnr events i r,
      activeNodesResponses (run events (newDiscv5 localEnr) : Discv5 RefTable) !! i = Some r ->
      count r <= 5)).
Proof.
  intros s srcId packets. split; [reflexivity|].
  exact (C6_nodes_packets_capped s srcId addrQ 11 8 packets eq_refl).
Defined.

(** On that input five packets are accepted, and the sixth and seventh are not. *)
Example five_of_seven_accepted :
  acceptedCount (nodeId enrQ) addrQ 11 8
    [[enrA]; [enrB]; [enrC]; [enrD]; [enrA]; [enrB]; [enrC]] (establishedQ quiet) = 5%nat.
Proof. reflexivity. Qed.

(** The 2^32-th call of [findNode] in a row is given the id 2^32. *)
Lemma C7_counterexample :
  ~ (1 <= assignedLookupId (KademliaRoutingTable := RefTable)
            enrLocal 9%N (2 ^ 32 - 1)%N < 2 ^ 32).
Proof.
  rewrite (assignedLookupId_eq (KademliaRoutingTable := RefTable)).
  vm_compute. intros [_ H]. discriminate H.
Qed.

(** C8 at a concrete input: seven records at distance 200 go out in three
    packets. *)
Lemma C8_witness :
  let nodes := valuesOfDistance (kbuckets sevenAt200) 200 in
  let n := Z.of_nat (length nodes) in
  let total := ceilDiv n nodesPerPacket in
  0 < 200 /\
  0 < Z.of_nat (length (valuesOfDistance (kbuckets sevenAt200) 200)) /\
  n = 7 /\ total = 3 /\
  (nodesPerPacket = (1280 - 92) / 300 /\ nodesPerPacket = 3 /\
   3 * (total - 1) < n <= 3 * total /\
   fst (onFindNode (nodeId enrQ) addrQ 9 200 sevenAt200) = Ok tt /\
   exists new chunks,
     trace (exec (onFindNode (nodeId enrQ) addrQ 9 200) sevenAt200)
     = trace sevenAt200 ++ new /\
     length new = length chunks /\
     sessionCalls new
     = map (fun c => SendResponse addrQ (nodeId enrQ) (INodesMessage 9 total c)) chunks /\
     Z.of_nat (length chunks) = total /\
     concat chunks = nodes).
Proof.
  intros nodes n total.
  split; [reflexivity|]. split; [reflexivity|].
  split; [reflexivity|]. split; [reflexivity|].
  exact (C8_findNode_splits_nodes sevenAt200 (nodeId enrQ) addrQ 9 200 eq_refl eq_refl).
Defined.

(** C9 at a concrete input: Q is in the table and the session service
    throws on every call. *)
Lemma C9_witness :
  let s := establishedQ failing in
  let req := IPingMessage 12 1 in
  getValue (kbuckets s) (nodeId enrQ) = Some enrQ /\
  sessionThrows (Collaborators := failing) (trace s) (SendRequest enrQ req) = true /\
  (fst (sendRequest (H := failing) (nodeId enrQ) req None s) = Ok tt /\
   activeRequests (exec (sendRequest (H := failing) (nodeId enrQ) req None) s)
   = activeRequests s /\
   exec (sendRequest (H := failing) (nodeId enrQ) req None) s
   = setTrace (trace s ++ [Session (SendRequest enrQ req) true]) s).
Proof.
  intros s req. split; [reflexivity|]. split; [reflexivity|].
  exact (C9_sendRequest_throw_swallowed (H := failing) s (nodeId enrQ) req None enrQ
           eq_refl eq_refl).
Defined.

(** C10 at a concrete input: lookup 1 holds A among its untrusted ENRs, the
    table does not know A, and the lookup's probe of A is dropped. *)
Lemma C10_witness :
  let s := untrustedA in
  let req := IFindNodeMessage 11 200 in
  let peer := mkLookupPeer (nodeId enrA) 1 in
  getValue (kbuckets s) (nodeId enrA) = None /\
  getValue (kbuckets s) (peerNodeId peer) = None /\
  findEnr s (nodeId enrA) = Some enrA /\
  (sendRequest (nodeId enrA) req (Some 1) s = (Ok tt, s) /\
   fst (sendLookup 1 9%N peer s) = Ok tt /\
   activeRequests (exec (sendLookup 1 9%N peer) s) = activeRequests s /\
   sessionCalls (trace (exec (sendLookup 1 9%N peer) s)) = sessionCalls (trace s) /\
   (findNodeLog2Distance 9%N peer <> 0 ->
    exec (sendLookup 1 9%N peer) s = setIdsDrawn (S (idsDrawn s)) s)).
Proof.
  intros s req peer.
  split; [reflexivity|]. split; [reflexivity|]. split; [reflexivity|].
  exact (C10_no_enr_no_request s (nodeId enrA) req (Some 1) 1 9%N peer eq_refl eq_refl).
Defined.

(** ** The further properties at concrete inputs *)


(** X4 at a concrete input: [stop] after a session with Q was established. *)
Lemma X4_witness :
  let s := establishedQ quiet in
  let s' := exec stop s in
  started s = true /\
  (fst (stop s) = Ok tt /\
   started s' = false /\
   enr s' = enr s /\
   kbuckets s' = clearTable (kbuckets s) /\
   activeLookups s' = [] /\
   nextLookupId s' = 1 /\
   activeRequests s' = ∅ /\
   activeNodesResponses s' = ∅ /\
   connectedPeers s' = ∅ /\
   trace s' = trace s ++ map LookupStop (jsKeys (activeLookups s)) /\
   (forall n h, connectedPeers s !! n = Some h -> intervals s' !! h = None) /\
   (forall h, (forall n, connectedPeers s !! n <> Some h) ->
              intervals s' !! h = intervals s !! h) /\
   stop s' = (Ok tt, s')).
Proof.
  intros s s'. split; [reflexivity|].
  exact (X4_stop_clears_everything s eq_refl).
Defined.

(** X6 at a concrete input: Q after its session was established. *)
Lemma X6_witness :
  let s := establishedQ quiet in
  connectedPeers s !! nodeId enrQ = Some 0%nat /\
  (intervals s !! 0%nat = Some (nodeId enrQ) /\
   onInterval 0%nat s = sendPing (nodeId enrQ) s /\
   (forall n', connectedPeers s !! n' = Some 0%nat -> n' = nodeId enrQ)).
Proof.
  intros s. split; [reflexivity|].
  exact (X6_connected_peers_have_their_interval enrLocal
           [EStart; EAddEnr enrQ; EEstablished enrQ] (nodeId enrQ) 0%nat eq_refl).
Defined.

(** X7 at a concrete input: the PING to Q fails. *)
Lemma X7_witness :
  let s := establishedQ quiet in
  let s' := exec (onRequestFailed (nodeId enrQ) 11) s in
  connectedPeers s !! nodeId enrQ = Some 0%nat /\
  (connectedPeers s' !! nodeId enrQ = None /\
   intervals s' !! 0%nat = None /\
   onInterval 0%nat s' = (Ok tt, s')).
Proof.
  intros s s'. split; [reflexivity|].
  exact (X7_failed_peer_is_not_pinged_again s (nodeId enrQ) 11 0%nat eq_refl).
Defined.

(** X8 at a concrete input: a second session with Q is established. *)
Lemma X8_witness :
  let s := establishedQ quiet in
  let s1 := exec (onEstablished enrQ) s in
  timersOk s /\ started s = true /\ connectedPeers s !! nodeId enrQ = Some 0%nat /\
  (connectedPeers s1 !! nodeId enrQ = Some (timersCreated s) /\
   timersCreated s <> 0%nat /\
   intervals s1 !! 0%nat = Some (nodeId enrQ) /\
   (forall rpcId,
      intervals (exec (onRequestFailed (nodeId enrQ) rpcId) s1) !! 0%nat = Some (nodeId enrQ)) /\
   intervals (exec stop s1) !! 0%nat = Some (nodeId enrQ)).
Proof.
  intros s s1.
  pose proof (run_timersOk [EStart; EAddEnr enrQ; EEstablished enrQ] fresh
                (newDiscv5_timersOk enrLocal)) as Ht.
  split; [exact Ht|]. split; [reflexivity|]. split; [reflexivity|].
  exact (X8_second_established_leaves_interval_armed s enrQ 0%nat Ht eq_refl eq_refl).
Defined.

(** X9 at a concrete input: the probe of Q for lookup 1. *)
Lemma X9_witness :
  activeRequests (run probingQ fresh) !! 11 = Some (IFindNodeMessage 11 200, Some 1) /\
  (reqId (IFindNodeMessage 11 200) = 11 /\
   exists d, IFindNodeMessage 11 200 = IFindNodeMessage 11 d /\ d <> 0).
Proof.
  split; [reflexivity|].
  exact (X9_registry_entries_well_formed enrLocal probingQ 11 (IFindNodeMessage 11 200)
           (Some 1) eq_refl).
Defined.

(** X11 at a concrete input: lookup 1 holds A and is handed A, B and the
    local record. *)
Lemma X11_witness :
  let s := untrustedA in
  let lk := mkLookup 9%N [] [enrA] in
  let es := [enrA; enrB; enrLocal] in
  let others := List.filter (fun e => negb (N.eqb (nodeId e) (nodeId (enr s)))) es in
  let s' := exec (discovered (nodeId enrQ) es (Some 1)) s in
  1 <> 0 /\ jsGet 1 (activeLookups s) = Some lk /\
  (exists lk',
     jsGet 1 (activeLookups s') = Some lk' /\
     target lk' = target lk /\ knownClosestPeers lk' = knownClosestPeers lk /\
     (exists more, untrustedEnrs lk' = untrustedEnrs lk ++ more) /\
     (forall e, In e others -> In (nodeId e) (map nodeId (untrustedEnrs lk'))) /\
     (List.NoDup (map nodeId (untrustedEnrs lk)) ->
      List.NoDup (map nodeId (untrustedEnrs lk'))) /\
     (forall l', l' <> 1 -> jsGet l' (activeLookups s') = jsGet l' (activeLookups s)) /\
     (exists tr, trace s' = tr ++ [LookupOnSuccess 1 (nodeId enrQ) (map nodeId others)])).
Proof.
  intros s lk es others s'.
  assert (H1 : 1 <> 0) by discriminate.
  split; [exact H1|]. split; [reflexivity|].
  exact (X11_discovered_feeds_lookup s (nodeId enrQ) es 1 lk H1 eq_refl).
Defined.

(** X14 at a concrete input: a failure about Q on an instance that has
    never heard of Q. *)
Lemma X14_witness :
  let s := run [EStart] fresh in
  activeRequests s !! 11 = None /\
  getWithPending (kbuckets s) (nodeId enrQ) = None /\
  connectedPeers s !! nodeId enrQ = None /\
  onRequestFailed (nodeId enrQ) 11 s = (Ok tt, s).
Proof.
  intros s. split; [reflexivity|]. split; [reflexivity|]. split; [reflexivity|].
  exact (X14_failure_of_a_stranger_is_ignored s (nodeId enrQ) 11 eq_refl eq_refl eq_refl).
Defined.

(** X15 at a concrete input: lookup 1 probes Q, which is in the table, and
    the probe fails. *)
Lemma X15_witness :
  let s := run [EStart; EAddEnr enrQ; EFindNode 9%N] fresh in
  let peer := mkLookupPeer (nodeId enrQ) 1 in
  let req := IFindNodeMessage 11 200 in
  let s1 := exec (sendLookup 1 9%N peer) s in
  let s2 := exec (onRequestFailed (nodeId enrQ) 11) s1 in
  findNodeLog2Distance 9%N peer <> 0 /\
  getValue (kbuckets s) (nodeId enrQ) = Some enrQ /\
  jsGet 1 (activeLookups s) = Some (mkLookup 9%N [nodeId enrQ] []) /\
  sessionThrows (trace s) (SendRequest enrQ req) = false /\
  activeNodesResponses s !! 11 = None /\
  (activeRequests s1 !! 11 = Some (req, Some 1) /\
   trace s2 = trace s ++ [Session (SendRequest enrQ req) false;
                          LookupOnFailure 1 (nodeId enrQ)] /\
   activeRequests s2 = activeRequests s1).
Proof.
  intros s peer req s1 s2.
  assert (Hd : findNodeLog2Distance 9%N peer <> 0) by discriminate.
  split; [exact Hd|]. split; [reflexivity|]. split; [reflexivity|].
  split; [reflexivity|]. split; [reflexivity|].
  exact (X15_failed_probe_reported_to_lookup s 1 9%N peer enrQ
           (mkLookup 9%N [nodeId enrQ] []) Hd eq_refl eq_refl eq_refl eq_refl).
Defined.

(** X17 at a concrete input: the probe of Q for lookup 1. *)
Lemma X17_witness :
  let s := run probingQ fresh in
  activeRequests s !! 11 = Some (IFindNodeMessage 11 200, Some 1) /\
  exists dst, In (Session (SendRequest dst (IFindNodeMessage 11 200)) false) (trace s).
Proof.
  intros s. split; [reflexivity|].
  exact (X17_registered_requests_went_out enrLocal probingQ 11 (IFindNodeMessage 11 200)
           (Some 1) eq_refl).
Defined.
